(** * SiteScraper: a shallow embedding of [scraper.py]

    The crawler of [scraper.py] is a single class, [SiteScraper], that
    drives a browser over one web domain, turns every page into markdown,
    stores the pages that carry enough text and finally writes an index.

    Layout of this development:
    - [PyStr]: the [str] methods and the regular expressions the class
      uses, over strings of code points below 256;
    - the outcome type for calls that may raise, and the interfaces of the
      collaborators that live outside the repository (the URL parser of
      the standard library, the browser, the file system);
    - the methods of [SiteScraper], in the order of the source file;
    - the properties. *)

From Stdlib Require Import Ascii.
From stdpp Require Import gmap strings list sorting.

(** ** Python strings *)

(** A [str] is modelled by a [string] whose characters are the code
    points 0..255.  Every function below follows the behaviour of the
    method of the same name on such strings. *)
Module PyStr.

Definition code (c : ascii) : nat := nat_of_ascii c.

(** [str.isspace] on one character, which is also the class [\s] of
    [re] and the default character set of [str.strip]. *)
Definition isspace (c : ascii) : bool :=
  let n := code c in
  ((9 <=? n) && (n <=? 13)) || ((28 <=? n) && (n <=? 32))
  || (n =? 133) || (n =? 160).

Fixpoint lstrip (s : string) : string :=
  match s with
  | String c s' => if isspace c then lstrip s' else s
  | EmptyString => EmptyString
  end.

Fixpoint rstrip (s : string) : string :=
  match s with
  | EmptyString => EmptyString
  | String c s' =>
      match rstrip s' with
      | EmptyString => if isspace c then EmptyString else String c EmptyString
      | r => String c r
      end
  end.

(** [s.strip()] *)
Definition strip (s : string) : string := rstrip (lstrip s).

(** [s.strip(ch)] for a one-character argument. *)
Fixpoint lstrip_char (ch : ascii) (s : string) : string :=
  match s with
  | String c s' => if decide (c = ch) then lstrip_char ch s' else s
  | EmptyString => EmptyString
  end.

Fixpoint rstrip_char (ch : ascii) (s : string) : string :=
  match s with
  | EmptyString => EmptyString
  | String c s' =>
      match rstrip_char ch s' with
      | EmptyString => if decide (c = ch) then EmptyString else String c EmptyString
      | r => String c r
      end
  end.

Definition strip_char (ch : ascii) (s : string) : string :=
  rstrip_char ch (lstrip_char ch s).

(** [s.split(sep)] for a one-character separator: the piece before the
    first separator, and the pieces after it. *)
Fixpoint split_go (sep : ascii) (s : string) : string * list string :=
  match s with
  | EmptyString => (EmptyString, [])
  | String c s' =>
      let '(h, t) := split_go sep s' in
      if decide (c = sep) then (EmptyString, h :: t) else (String c h, t)
  end.

Definition split (sep : ascii) (s : string) : list string :=
  let '(h, t) := split_go sep s in h :: t.

(** [sep.join(l)] *)
Fixpoint join (sep : string) (l : list string) : string :=
  match l with
  | [] => EmptyString
  | [x] => x
  | x :: l' => x +:+ sep +:+ join sep l'
  end.

(** [s.replace(a, b)] for one-character [a] and [b]. *)
Fixpoint replace_char (a b : ascii) (s : string) : string :=
  match s with
  | EmptyString => EmptyString
  | String c s' => String (if decide (c = a) then b else c) (replace_char a b s')
  end.

(** [str.lower] on one character: the letters A-Z and the upper-case
    letters of the Latin-1 supplement move 32 code points up. *)
Definition lower_char (c : ascii) : ascii :=
  let n := code c in
  if ((65 <=? n) && (n <=? 90))
     || ((192 <=? n) && (n <=? 222) && negb (n =? 215))
  then ascii_of_nat (n + 32) else c.

Fixpoint lower (s : string) : string :=
  match s with
  | EmptyString => EmptyString
  | String c s' => String (lower_char c) (lower s')
  end.

(** [s.startswith(p)] *)
Fixpoint startswith (s p : string) : bool :=
  match p, s with
  | EmptyString, _ => true
  | String _ _, EmptyString => false
  | String b p', String a s' => bool_decide (a = b) && startswith s' p'
  end.

(** [s.endswith(p)] *)
Fixpoint endswith (s p : string) : bool :=
  bool_decide (s = p)
  || match s with
     | EmptyString => false
     | String _ s' => endswith s' p
     end.

(** [p in s] *)
Fixpoint contains (s p : string) : bool :=
  startswith s p
  || match s with
     | EmptyString => false
     | String _ s' => contains s' p
     end.

(** [ch * n] *)
Fixpoint repeat_char (ch : ascii) (n : nat) : string :=
  match n with
  | 0 => EmptyString
  | S n' => String ch (repeat_char ch n')
  end.

(** [re.sub(r'\s+', ' ', s)]: every maximal run of white space becomes
    one blank. *)
Fixpoint collapse_ws (s : string) : string :=
  match s with
  | EmptyString => EmptyString
  | String c s' =>
      if isspace c then
        match s' with
        | String c' _ => if isspace c' then collapse_ws s'
                         else String " " (collapse_ws s')
        | EmptyString => String " " EmptyString
        end
      else String c (collapse_ws s')
  end.

(** The class [[*_`#\[\]]] of the escaping substitution. *)
Definition is_markdown_control (c : ascii) : bool :=
  bool_decide (c ∈ ["*"; "_"; "`"; "#"; "["; "]"]%char).

(** [re.sub(r'([*_`#\[\]])', r'\\\1', s)] *)
Fixpoint escape_markdown (s : string) : string :=
  match s with
  | EmptyString => EmptyString
  | String c s' =>
      if is_markdown_control c
      then String "\" (String c (escape_markdown s'))
      else String c (escape_markdown s')
  end.

(** The character class of the file-name substitution: the two angle
    brackets, colon, double quote (code 34), slash, backslash, bar,
    question mark and star. *)
Definition is_hostile (c : ascii) : bool :=
  bool_decide (c ∈ ["<"; ">"; ":"; "034"; "/"; "\"; "|"; "?"; "*"]%char).

(** Truth value of a string: [if s:]. *)
Definition truthy (s : string) : bool := negb (bool_decide (s = EmptyString)).

End PyStr.

Import PyStr.

(** ** Calls that may raise *)

(** A call either returns a value or raises.  The class only ever
    catches with [except Exception] or a bare [except], so one [Raises]
    stands for every exception. *)
Inductive outcome (A : Type) : Type :=
  | Returns (a : A)
  | Raises.
Arguments Returns {A} a.
Arguments Raises {A}.

Global Instance outcome_ret : MRet outcome := @Returns.
Global Instance outcome_bind : MBind outcome := λ A B f m,
  match m with
  | Returns a => f a
  | Raises => Raises
  end.

(** [try: x = m  except: x = d] *)
Definition recover {A} (m : outcome A) (d : A) : A :=
  match m with
  | Returns a => a
  | Raises => d
  end.

(** ** The collaborators *)

(** The six fields of the result of [urllib.parse.urlparse]; the class
    reads [netloc] and [path]. *)
Record ParseResult := {
  scheme : string;
  netloc : string;
  path : string;
  params : string;
  query : string;
  fragment : string;
}.

(** What the class reads of a [WebElement] found inside a content
    container.  [el_id] is the identity that [==] on elements compares,
    [el_parent] the identity of the element that the XPath [..] finds. *)
Record Element := {
  el_id : nat;
  el_is_displayed : outcome bool;
  el_parent : outcome nat;
  el_text : outcome string;
  el_tag_name : outcome string;
}.

(** A content container: the results of its two [find_elements] calls,
    for the text-bearing tags and for [button, a]. *)
Record Container := {
  c_text_elements : outcome (list Element);
  c_interactive : outcome (list Element);
}.

(** The browser after [driver.get(url)]: the title, the result of
    [find_elements(By.CSS_SELECTOR, selector)] for every selector, of
    [find_element(By.TAG_NAME, "body")], and, for every [a] element of
    [find_elements(By.TAG_NAME, "a")], its [href] attribute ([None] when
    the attribute is missing). *)
Record Page := {
  title : outcome string;
  find_elements_css : string → outcome (list Container);
  find_body : outcome Container;
  find_anchors : outcome (list (outcome (option string)));
}.

(** The part of the file system the class touches: the directories it
    made and the text of the files it wrote, by path. *)
Record FileSystem := {
  dirs : gset string;
  files : gmap string string;
}.

(** ** The state of the crawler *)

(** The fields of a [SiteScraper] object that the crawl reads or
    changes. *)
Record SiteScraper := {
  base_url : string;
  domain : string;
  visited_urls : gset string;
  urls_to_visit : list string;
  language : option string;
}.

Definition set_visited_urls (v : gset string) (self : SiteScraper) : SiteScraper :=
  {| base_url := base_url self; domain := domain self; visited_urls := v;
     urls_to_visit := urls_to_visit self; language := language self |}.

Definition set_urls_to_visit (q : list string) (self : SiteScraper) : SiteScraper :=
  {| base_url := base_url self; domain := domain self;
     visited_urls := visited_urls self; urls_to_visit := q;
     language := language self |}.

(** A crawl in progress: the object, the local [page_count] of
    [scrape_site], the file system, and the number of [driver.get] calls
    made so far. *)
Record Crawl := {
  self : SiteScraper;
  page_count : nat;
  disk : FileSystem;
  clock : nat;
}.

(** [a or b] on optional strings: the first operand unless it is [None]
    or empty. *)
Definition py_or (a b : option string) : option string :=
  match a with
  | Some s => if truthy s then a else b
  | None => b
  end.

(** [if self.language:] *)
Definition language_set (lang : option string) : option string :=
  match lang with
  | Some l => if truthy l then Some l else None
  | None => None
  end.

(** ** A reference URL parser *)

(** The class calls [urllib.parse.urlparse], which belongs to the Python
    standard library and not to the repository.  The methods below take
    the parser as a parameter; [urlparse_model] is the instance used to
    run them on concrete URLs.  It follows [urlsplit] and [urlparse] of
    CPython 3.12 step by step on every URL whose authority is plain
    ASCII without square brackets; on the other URLs, where the library
    consults [ipaddress] and [unicodedata], it reports [Raises]. *)
Module UrlModel.

(** The longest prefix without a character of [stop], and the rest. *)
Fixpoint break_at (stop : ascii → bool) (s : string) : string * string :=
  match s with
  | EmptyString => (EmptyString, EmptyString)
  | String c s' =>
      if stop c then (EmptyString, s)
      else let '(a, b) := break_at stop s' in (String c a, b)
  end.

Fixpoint remove_chars (drop : ascii → bool) (s : string) : string :=
  match s with
  | EmptyString => EmptyString
  | String c s' =>
      if drop c then remove_chars drop s' else String c (remove_chars drop s')
  end.

Fixpoint forall_chars (p : ascii → bool) (s : string) : bool :=
  match s with
  | EmptyString => true
  | String c s' => p c && forall_chars p s'
  end.

Definition is_c0_or_space (c : ascii) : bool := code c <=? 32.
Definition is_tab_cr_lf (c : ascii) : bool :=
  bool_decide (c ∈ ["009"; "010"; "013"]%char).
Definition is_ascii_alpha (c : ascii) : bool :=
  let n := code c in
  ((65 <=? n) && (n <=? 90)) || ((97 <=? n) && (n <=? 122)).
Definition is_ascii_digit (c : ascii) : bool :=
  let n := code c in (48 <=? n) && (n <=? 57).
Definition is_scheme_char (c : ascii) : bool :=
  is_ascii_alpha c || is_ascii_digit c || bool_decide (c ∈ ["+"; "-"; "."]%char).
Definition is_ascii (c : ascii) : bool := code c <? 128.

Fixpoint lstrip_c0 (s : string) : string :=
  match s with
  | String c s' => if is_c0_or_space c then lstrip_c0 s' else s
  | EmptyString => EmptyString
  end.

(** The scheme, when the text before the first colon is one, and what
    follows the colon. *)
Definition split_scheme (url : string) : string * string :=
  match url with
  | String c0 _ =>
      let '(before, rest) := break_at (λ c, bool_decide (c = ":"%char)) url in
      match rest with
      | String _ after =>
          if is_ascii_alpha c0 && forall_chars is_scheme_char before
          then (lower before, after) else (EmptyString, url)
      | EmptyString => (EmptyString, url)
      end
  | EmptyString => (EmptyString, url)
  end.

(** The authority after a leading [//], up to the first of [/?#]. *)
Definition split_netloc (url : string) : string * string :=
  match url with
  | String "/" (String "/" rest) =>
      break_at (λ c, bool_decide (c ∈ ["/"; "?"; "#"]%char)) rest
  | _ => (EmptyString, url)
  end.

(** [url.split(ch, 1)] when [ch] occurs, else the URL and nothing. *)
Definition split_once (ch : ascii) (url : string) : string * string :=
  let '(a, b) := break_at (λ c, bool_decide (c = ch)) url in
  match b with
  | String _ b' => (a, b')
  | EmptyString => (a, EmptyString)
  end.

(** The text up to and including the last slash, and the rest. *)
Fixpoint rsplit_slash (s : string) : option (string * string) :=
  match s with
  | EmptyString => None
  | String c s' =>
      match rsplit_slash s' with
      | Some (a, b) => Some (String c a, b)
      | None => if decide (c = "/"%char) then Some (String c EmptyString, s') else None
      end
  end.

(** [_splitparams]: the parameters start at the first semicolon of the
    last path segment. *)
Definition splitparams (url : string) : string * string :=
  match rsplit_slash url with
  | Some (a, b) =>
      if contains b ";" then
        let '(b1, b2) := split_once ";" b in (a +:+ b1, b2)
      else (url, EmptyString)
  | None => split_once ";" url
  end.

Definition uses_params : list string :=
  [""; "ftp"; "hdl"; "prospero"; "http"; "imap"; "https"; "shttp"; "rtsp";
   "rtspu"; "sip"; "sips"; "mms"; "sftp"; "tel"].

Definition urlparse_model (url0 : string) : outcome ParseResult :=
  let url := remove_chars is_tab_cr_lf (lstrip_c0 url0) in
  let '(sch, url) := split_scheme url in
  let '(loc, url) := split_netloc url in
  if contains loc "[" || contains loc "]" || negb (forall_chars is_ascii loc)
  then Raises
  else
    let '(url, frag) := split_once "#" url in
    let '(url, qry) := split_once "?" url in
    let '(url, prm) :=
      if bool_decide (sch ∈ uses_params) && contains url ";"
      then splitparams url else (url, EmptyString) in
    Returns {| scheme := sch; netloc := loc; path := url; params := prm;
               query := qry; fragment := frag |}.

End UrlModel.

Import UrlModel.

(** ** The methods of [SiteScraper] *)

Definition LF : ascii := "010"%char.
Definition nl : string := String LF EmptyString.

Section Scraper.

(** [urllib.parse.urlparse]; it raises [ValueError] on some inputs. *)
Variable urlparse : string → outcome ParseResult.
(** [os.getenv] *)
Variable getenv : string → option string.
(** [driver.get(url)] at its n-th call: the page the browser then
    shows, or a fault. *)
Variable driver_get : nat → string → outcome Page.
(** Whether [mkdir(parents=True, exist_ok=True)] succeeds on a path. *)
Variable can_mkdir : string → bool.
(** Whether [open(path, 'w')] and the write that follows succeed; a
    failing write is taken to fail before the file is touched. *)
Variable can_write : string → bool.

(** [__init__], without the logging and browser set-up: lines 20-26. *)
Definition __init__ (base_url_arg language_arg : option string)
  : outcome SiteScraper :=
  match py_or base_url_arg (getenv "BASE_URL") with
  | Some b =>
      if negb (truthy b) then Raises
      else
        parsed ← urlparse b;
        mret {| base_url := b; domain := netloc parsed; visited_urls := ∅;
                urls_to_visit := [b];
                language := py_or language_arg (getenv "SCRAPER_LANGUAGE") |}
  | None => Raises
  end.

Definition download_extensions : list string :=
  [".pdf"; ".jpg"; ".png"; ".gif"; ".jpeg"; ".doc"; ".docx"].

Definition social_patterns : list string :=
  ["facebook.com"; "twitter.com"; "linkedin.com"; "instagram.com"].

(** [_is_valid_url]: lines 73-102. *)
Definition _is_valid_url (self : SiteScraper) (url : string) : outcome bool :=
  if negb (truthy url) then mret false
  else
    parsed ← urlparse url;
    if negb (bool_decide (netloc parsed = domain self)) then mret false
    else if contains url "#" then mret false
    else if existsb (λ ext, endswith (lower url) ext) download_extensions
    then mret false
    else if existsb (λ pattern, contains (lower url) pattern) social_patterns
    then mret false
    else
      match language_set (language self) with
      | Some lang =>
          let url_path := lower (path parsed) in
          if negb (startswith url_path ("/" +:+ lower lang +:+ "/"))
             && negb (bool_decide (url_path = "/" +:+ lower lang))
          then mret false
          else mret true
      | None => mret true
      end.

(** [_extract_links]: lines 104-120.  A fault of [find_elements]
    leaves the set empty; a fault on one element, also inside
    [_is_valid_url], skips that element. *)
Definition link_of (self : SiteScraper) (element : outcome (option string))
  : outcome (option string) :=
  href ← element;
  match href with
  | Some h =>
      if truthy h then
        valid ← _is_valid_url self h;
        mret (if valid : bool then Some h else None)
      else mret None
  | None => mret None
  end.

Definition _extract_links (self : SiteScraper) (page : Page) : gset string :=
  match find_anchors page with
  | Raises => ∅
  | Returns elements =>
      foldl (λ links element,
               match recover (link_of self element) None with
               | Some h => links ∪ {[h]}
               | None => links
               end) ∅ elements
  end.

(** [_clean_text]: lines 228-235. *)
Definition _clean_text (text : string) : string :=
  if negb (truthy text) then EmptyString
  else escape_markdown (collapse_ws (strip text)).

(** [int(ch)] on a one-character string. *)
Definition int_of_char (c : ascii) : outcome nat :=
  match Ascii.is_nat c with
  | Some n => Returns n
  | None => Raises
  end.

(** The body of the [try] of lines 167-195 for one element: what it
    appends to [content]. *)
Definition text_block (elements : list Element) (element : Element)
  : outcome (list string) :=
  displayed ← el_is_displayed element;
  if negb displayed then mret []
  else
    parent ← el_parent element;
    if bool_decide (parent ∈ el_id <$> elements) then mret []
    else
      raw ← el_text element;
      let text := _clean_text raw in
      if negb (truthy text) then mret []
      else
        tag_name ← el_tag_name element;
        if startswith tag_name "h" && (String.length tag_name =? 2) then
          level ← match String.get 1 tag_name with
                  | Some d => int_of_char d
                  | None => Raises
                  end;
          mret [repeat_char "#" level +:+ " " +:+ text +:+ nl]
        else if bool_decide (tag_name = "li") then
          mret ["- " +:+ text +:+ nl]
        else mret [text +:+ nl].

(** The body of the [try] of lines 201-205 for one button or link. *)
Definition interactive_block (element : Element) : outcome (list string) :=
  displayed ← el_is_displayed element;
  if displayed : bool then
    raw ← el_text element;
    let text := _clean_text raw in
    if truthy text && (5 <? String.length text)
    then mret ["_" +:+ text +:+ "_" +:+ nl]
    else mret []
  else mret [].

(** Lines 158-211 for one container: what the loop body appends.  A
    fault of the first [find_elements] appends nothing; a fault of the
    second one keeps the text blocks. *)
Definition container_blocks (main_content : Container) : list string :=
  match c_text_elements main_content with
  | Raises => []
  | Returns elements =>
      let blocks := elements ≫= λ element, recover (text_block elements element) [] in
      match c_interactive main_content with
      | Raises => blocks
      | Returns buttons =>
          blocks ++ (buttons ≫= λ element, recover (interactive_block element) [])
      end
  end.

Definition content_selectors : list string :=
  ["main"; "article"; "#content"; ".content"; ".main-content";
   ".page-content"; ".entry-content"; ".post-content";
   "section"; ".section"; "[role='main']"; ".container";
   "#main"; ".main"; ".body-content"].

(** The title line, when the title is not empty, and the line that
    carries the URL: lines 128-133. *)
Definition preamble (page_title url : string) : list string :=
  (if truthy page_title then ["# " +:+ _clean_text page_title +:+ nl] else [])
  ++ ["*Original URL: " +:+ url +:+ "*" +:+ nl].

(** The list [content] when the outer [try] of lines 126-214 is left,
    and how it is left.  [_wait_for_content] catches its own faults and
    changes nothing the class reads. *)
Definition markdown_lines (page : Page) (url : string)
  : list string * outcome unit :=
  match title page with
  | Raises => ([], Raises)
  | Returns page_title =>
      let content := preamble page_title url in
      let main_elements :=
        content_selectors ≫= λ selector, recover (find_elements_css page selector) [] in
      let containers :=
        match main_elements with
        | [] => body ← find_body page; mret [body]
        | _ => mret main_elements
        end in
      match containers with
      | Raises => (content, Raises)
      | Returns main_elements =>
          (content ++ (main_elements ≫= container_blocks), Returns ())
      end
  end.

(** [_create_markdown_content]: lines 122-216.  Whether the [try] ends
    normally or in the handler of line 213, the method returns the
    lines collected so far, joined. *)
Definition _create_markdown_content (page : Page) (url : string)
  : outcome string :=
  match markdown_lines page url with
  | (content, Returns _) => Returns (join nl content)
  | (content, Raises) => Returns (join nl content)
  end.

(** The two tests of lines 240-249. *)
Definition content_lines (content : string) : list string :=
  split LF (strip content).

Definition actual_content (content : string) : string :=
  join nl (drop 2 (content_lines content)).

Definition has_meaningful_content (content : string) : bool :=
  negb (length (content_lines content) <=? 2)
  && negb (String.length (strip (actual_content content)) <? 100).

(** [re.sub(r'[<>:...]', '_', filename)] of line 257. *)
Fixpoint clean_filename (filename : string) : string :=
  match filename with
  | EmptyString => EmptyString
  | String c rest =>
      String (if is_hostile c then "_"%char else c) (clean_filename rest)
  end.

(** [output] or [output/<language>]: lines 251-253 and 275-277. *)
Definition output_path (self : SiteScraper) : string :=
  match language_set (language self) with
  | Some lang => "output/" +:+ lang
  | None => "output"
  end.

Definition file_path (self : SiteScraper) (filename : string) : string :=
  output_path self +:+ "/" +:+ clean_filename filename +:+ ".md".

(** [_save_markdown]: lines 237-267.  A fault of [mkdir] is not caught
    here. *)
Definition _save_markdown (self : SiteScraper) (fs : FileSystem)
    (content filename : string) : outcome (bool * FileSystem) :=
  if length (content_lines content) <=? 2 then mret (false, fs)
  else if String.length (strip (actual_content content)) <? 100
  then mret (false, fs)
  else if negb (can_mkdir (output_path self)) then Raises
  else
    let fs1 := {| dirs := dirs fs ∪ {["output"; output_path self]};
                  files := files fs |} in
    if can_write (file_path self filename)
    then mret (true, {| dirs := dirs fs1;
                        files := <[file_path self filename := content]> (files fs1) |})
    else mret (false, fs1).

(** [urlparse(url).path.strip('/').replace('/', '_') or 'index']:
    lines 274 and 303. *)
Definition slot_name (url_path : string) : string :=
  let filename := replace_char "/" "_" (strip_char "/" url_path) in
  if truthy filename then filename else "index".

(** [sorted(self.visited_urls)]: the elements in the order of [str],
    which compares code point by code point. *)
Definition sorted (urls : gset string) : list string :=
  merge_sort String.le (elements urls).

(** One pass of the loop of lines 273-278: the URL and its file name. *)
Definition index_entry (url : string) : outcome (string * string) :=
  parsed ← urlparse url;
  mret (url, slot_name (path parsed)).

Fixpoint index_entries (urls : list string) : outcome (list (string * string)) :=
  match urls with
  | [] => mret []
  | url :: rest =>
      entry ← index_entry url;
      entries ← index_entries rest;
      mret (entry :: entries)
  end.

Definition index_bullet (self : SiteScraper) (entry : string * string) : string :=
  "- [" +:+ entry.1 +:+ "](" +:+ output_path self +:+ "/" +:+ entry.2 +:+ ".md)".

(** The list [index_content] of lines 271-278. *)
Definition index_content (self : SiteScraper) : outcome (list string) :=
  entries ← index_entries (sorted (visited_urls self));
  mret (("# Site Content Index" +:+ nl) :: (index_bullet self <$> entries)).

Definition index_filename (self : SiteScraper) : string :=
  match language_set (language self) with
  | Some lang => "site_index_" +:+ lang
  | None => "site_index"
  end.

(** [_create_index]: lines 269-283; the file system it leaves. *)
Definition _create_index (self : SiteScraper) (fs : FileSystem)
  : outcome FileSystem :=
  lines ← index_content self;
  saved ← _save_markdown self fs (join nl lines) (index_filename self);
  mret saved.2.

(** Lines 312-314 for one link. *)
Definition enqueue (self : SiteScraper) (link : string) : SiteScraper :=
  if bool_decide (link ∈ visited_urls self) then self
  else set_urls_to_visit (urls_to_visit self ++ [link]) self.

(** The body of the [while] of [scrape_site] after [popleft]: lines
    292-321.  Every fault inside the [try] leaves the object, the count
    and the files as they were.  Python does not fix the order in which
    the [for] of line 312 goes through the set [new_links]; the order
    of [elements] stands for it. *)
Definition visit (st : Crawl) (current_url : string) : Crawl :=
  if bool_decide (current_url ∈ visited_urls (self st)) then st
  else
    let ticked := {| self := self st; page_count := page_count st;
                     disk := disk st; clock := S (clock st) |} in
    let body :=
      page ← driver_get (clock st) current_url;
      content ← _create_markdown_content page current_url;
      parsed ← urlparse current_url;
      saved ← _save_markdown (self st) (disk st) content (slot_name (path parsed));
      let marked :=
        set_visited_urls (visited_urls (self st) ∪ {[current_url]}) (self st) in
      let new_links := _extract_links marked page in
      mret {| self := foldl enqueue marked (elements new_links);
              page_count := S (page_count st);
              disk := saved.2;
              clock := S (clock st) |} in
    recover body ticked.

Definition pop (st : Crawl) (rest : list string) : Crawl :=
  {| self := set_urls_to_visit rest (self st); page_count := page_count st;
     disk := disk st; clock := clock st |}.

Definition within_budget (max_pages : option nat) (count : nat) : bool :=
  match max_pages with
  | None => true
  | Some m => count <? m
  end.

(** The [while] loop of lines 289-321, for at most [fuel] passes;
    [None] when the passes do not suffice. *)
Fixpoint scrape_loop (fuel : nat) (max_pages : option nat) (st : Crawl)
  : option Crawl :=
  match urls_to_visit (self st) with
  | [] => Some st
  | current_url :: rest =>
      if within_budget max_pages (page_count st) then
        match fuel with
        | 0 => None
        | S fuel' => scrape_loop fuel' max_pages (visit (pop st rest) current_url)
        end
      else Some st
  end.

(** [scrape_site]: lines 285-325. *)
Definition scrape_site (fuel : nat) (max_pages : option nat)
    (scraper : SiteScraper) (fs : FileSystem) : option (outcome Crawl) :=
  match scrape_loop fuel max_pages
          {| self := scraper; page_count := 0; disk := fs; clock := 0 |} with
  | None => None
  | Some st =>
      Some (fs' ← _create_index (self st) (disk st);
            mret {| self := self st; page_count := page_count st;
                    disk := fs'; clock := clock st |})
  end.

End Scraper.

(** ** Notions of the specification *)

Definition set_language (lang : option string) (self : SiteScraper) : SiteScraper :=
  {| base_url := base_url self; domain := domain self;
     visited_urls := visited_urls self; urls_to_visit := urls_to_visit self;
     language := lang |}.

(** Comparison without regard to case. *)
Definition equal_ignoring_case (a b : string) : Prop := lower a = lower b.

Definition begins_ignoring_case (s p : string) : Prop :=
  ∃ rest, lower s = lower p +:+ rest.

(** The path is [/lang], or begins with [/lang/]. *)
Definition language_path (lang url_path : string) : Prop :=
  equal_ignoring_case url_path ("/" +:+ lang)
  ∨ begins_ignoring_case url_path ("/" +:+ lang +:+ "/").

(** The characters that the file-name substitution replaces. *)
Definition hostile_chars : list ascii :=
  ["<"; ">"; ":"; "034"; "/"; "\"; "|"; "?"; "*"]%char.

(** The extraction of a page ends in a total fault when the outer [try]
    of [_create_markdown_content] is left by an exception. *)
Definition total_fault (page : Page) (url : string) : Prop :=
  (markdown_lines page url).2 = Raises.

(** The blocks of a document: the lines collected after the title line
    and the URL line. *)
Definition blocks (page : Page) (url : string) : list string :=
  match title page with
  | Returns page_title =>
      drop (length (preamble page_title url)) (markdown_lines page url).1
  | Raises => (markdown_lines page url).1
  end.

(** The first line of the index. *)
Definition heading : string := "# Site Content Index" +:+ nl.

(** Every URL of the set is one that the parser accepts. *)
Definition all_parse (urlparse : string → outcome ParseResult)
    (urls : gset string) : Prop :=
  ∀ url, url ∈ urls → ∃ parsed, urlparse url = Returns parsed.


(** The crawl after a pass in which a fault was caught. *)
Definition abandoned (st : Crawl) : Crawl :=
  {| self := self st; page_count := page_count st; disk := disk st;
     clock := S (clock st) |}.

(** A collected line that is one line of text closed by a line feed. *)
Definition one_line (line : string) : Prop :=
  ∃ body, line = body +:+ nl ∧ contains body nl = false.

(** ** A small site to run the crawler on *)

Module Demo.

(** A paragraph element that is displayed and whose parent is not among
    the elements found with it. *)
Definition paragraph (i : nat) (text : string) : Element :=
  {| el_id := S i; el_is_displayed := Returns true; el_parent := Returns 0;
     el_text := Returns text; el_tag_name := Returns "p" |}.

(** A page without content containers: the body holds the paragraphs,
    and the anchors carry the given addresses. *)
Definition plain_page (page_title : string) (paragraphs links : list string) : Page :=
  {| title := Returns page_title;
     find_elements_css := λ _, Returns [];
     find_body := Returns {| c_text_elements := Returns (imap paragraph paragraphs);
                             c_interactive := Returns [] |};
     find_anchors := Returns ((λ h, Returns (Some h)) <$> links) |}.

(** A page whose title can be read but that has no container and no
    reachable body. *)
Definition broken_page (page_title : string) : Page :=
  {| title := Returns page_title;
     find_elements_css := λ _, Raises;
     find_body := Raises;
     find_anchors := Raises |}.

Definition home_url : string := "https://example.com/".
Definition team_url : string := "https://example.com/about-the-team".

Definition long_text : string :=
  "Welcome to the example site, which shows what we build, who we are, " +:+
  "where to find us and how to get in touch with the people behind it all.".

Definition short_text : string := "Hello you.".

Definition no_env (name : string) : option string := None.
Definition always (p : string) : bool := true.

Definition empty_fs : FileSystem := {| dirs := ∅; files := ∅ |}.

Definition scraper : SiteScraper :=
  {| base_url := home_url; domain := "example.com"; visited_urls := ∅;
     urls_to_visit := [home_url]; language := None |}.

(** The object after the pass over the home page. *)
Definition after_home : SiteScraper :=
  {| base_url := home_url; domain := "example.com"; visited_urls := {[home_url]};
     urls_to_visit := [team_url]; language := None |}.

(** The object after both pages were visited. *)
Definition after_team : SiteScraper :=
  {| base_url := home_url; domain := "example.com";
     visited_urls := {[home_url; team_url]};
     urls_to_visit := []; language := None |}.

(** The same crawler restricted to the language [en]. *)
Definition english : SiteScraper := set_language (Some "en") scraper.

Definition home_page : Page :=
  plain_page "Home" [long_text]
    [team_url; "https://example.com/brochure.pdf"; team_url].
Definition team_page : Page := plain_page "Team" [short_text] [home_url].

Definition home_text : string :=
  "# Home" +:+ nl +:+ nl +:+ "*Original URL: https://example.com/*" +:+ nl
  +:+ nl +:+ long_text +:+ nl.
Definition team_text : string :=
  "# Team" +:+ nl +:+ nl
  +:+ "*Original URL: https://example.com/about-the-team*" +:+ nl
  +:+ nl +:+ short_text +:+ nl.
Definition index_text : string :=
  "# Site Content Index" +:+ nl +:+ nl
  +:+ "- [https://example.com/](output/index.md)" +:+ nl
  +:+ "- [https://example.com/about-the-team](output/about-the-team.md)".

(** The home page links to the team page and to a brochure; the team
    page has a ten-character paragraph and links back. *)
Definition site (n : nat) (url : string) : outcome Page :=
  if bool_decide (url = home_url) then Returns home_page
  else if bool_decide (url = team_url) then Returns team_page
  else Raises.

(** The crawl before the pass over the team page, and when the loop
    ends. *)
Definition before_team : Crawl :=
  {| self := set_urls_to_visit [] after_home; page_count := 1;
     disk := {| dirs := {["output"]};
                files := {[ "output/index.md" := home_text ]} |};
     clock := 1 |}.

Definition finished : Crawl :=
  {| self := after_team; page_count := 2; disk := disk before_team; clock := 2 |}.

(** The crawl at its start, and at its end with the index written. *)
Definition start : Crawl :=
  {| self := scraper; page_count := 0; disk := empty_fs; clock := 0 |}.


(** A URL of 90 characters. *)
Definition long_url : string :=
  "https://example.com/archive/2024/annual-report/appendix/tables/"
  +:+ "regional-figures-by-quarter".


(** A browser that cannot load any page. *)
Definition offline (n : nat) (url : string) : outcome Page := Raises.

Definition crawl : option (outcome Crawl) :=
  scrape_site urlparse_model site always always 10 (Some 100) scraper empty_fs.

End Demo.

(** ** Proof automation *)

(** Runs the monad of [outcome] without unfolding anything else. *)
Ltac run_outcome := cbn [mbind mret outcome_bind outcome_ret recover] in *.

(** ** Facts about the string functions *)

Section StringFacts.

Lemma app_String (c : ascii) (a b : string) :
  String c a +:+ b = String c (a +:+ b).
Proof. reflexivity. Qed.

Lemma app_empty_r (s : string) : s +:+ "" = s.
Proof. induction s as [|c s IH]; [done|]. by rewrite app_String, IH. Qed.

Lemma app_assoc_str (a b c : string) : (a +:+ b) +:+ c = a +:+ (b +:+ c).
Proof. induction a as [|x a IH]; [done|]. by rewrite !app_String, IH. Qed.

Lemma length_app_str (a b : string) :
  String.length (a +:+ b) = String.length a + String.length b.
Proof. induction a as [|x a IH]; [done|]. rewrite app_String. simpl. by rewrite IH. Qed.

Lemma lower_app (a b : string) : lower (a +:+ b) = lower a +:+ lower b.
Proof. induction a as [|x a IH]; [done|]. rewrite !app_String. simpl. by rewrite IH. Qed.

Lemma lower_char_idemp (c : ascii) : lower_char (lower_char c) = lower_char c.
Proof. by destruct c as [[] [] [] [] [] [] [] []]. Qed.

Lemma lower_idemp (s : string) : lower (lower s) = lower s.
Proof.
  induction s as [|c s IH]; [done|]. simpl. by rewrite lower_char_idemp, IH.
Qed.

(** Stripping never lengthens a string. *)
Lemma lstrip_length (s : string) : String.length (lstrip s) ≤ String.length s.
Proof.
  induction s as [|c s IH]; simpl; [lia|]. destruct (isspace c); simpl; lia.
Qed.

Lemma rstrip_length (s : string) : String.length (rstrip s) ≤ String.length s.
Proof.
  induction s as [|c s IH]; simpl; [lia|].
  destruct (rstrip s); [destruct (isspace c)|]; simpl in *; lia.
Qed.

Lemma strip_length (s : string) : String.length (strip s) ≤ String.length s.
Proof.
  unfold strip. etrans; [apply rstrip_length|apply lstrip_length].
Qed.

(** A string that ends in a character that is not white space keeps
    its end. *)
Lemma rstrip_app_last (a : string) (c : ascii) :
  isspace c = false → rstrip (a +:+ String c "") = a +:+ String c "".
Proof.
  intros Hc. induction a as [|x a IH].
  - simpl. by rewrite Hc.
  - rewrite app_String. simpl. rewrite IH.
    destruct a; by rewrite ?app_String.
Qed.

(** Splitting at a separator and joining again gives the string back. *)
Lemma split_go_app (sep : ascii) (a b : string) :
  split_go sep (a +:+ String sep b)
  = ((split_go sep a).1, (split_go sep a).2 ++ [ (split_go sep b).1 ] ++ (split_go sep b).2).
Proof.
  induction a as [|x a IH].
  - change ("" +:+ String sep b) with (String sep b). simpl.
    destruct (split_go sep b). by rewrite decide_True.
  - rewrite app_String. simpl. rewrite IH.
    destruct (split_go sep a) as [h t]. simpl. by destruct (decide (x = sep)).
Qed.

Lemma split_app (sep : ascii) (a b : string) :
  split sep (a +:+ String sep b) = split sep a ++ split sep b.
Proof.
  unfold split. rewrite split_go_app.
  by destruct (split_go sep a), (split_go sep b).
Qed.

Lemma join_cons (sep x : string) (l : list string) :
  l ≠ [] → join sep (x :: l) = x +:+ sep +:+ join sep l.
Proof. by destruct l. Qed.

Lemma join_split (sep : ascii) (s : string) :
  join (String sep "") (split sep s) = s.
Proof.
  unfold split. induction s as [|c s IH]; [done|]. simpl.
  destruct (split_go sep s) as [h t]. destruct (decide (c = sep)) as [->|].
  - change ("" +:+ String sep "" +:+ join (String sep "") (h :: t) = String sep s).
    by rewrite IH.
  - destruct t as [|x t]; simpl in *; [by rewrite IH|].
    rewrite app_String. f_equal. exact IH.
Qed.

(** A string without the separator is a single piece. *)
Lemma split_no_sep (sep : ascii) (s : string) :
  contains s (String sep "") = false → split sep s = [s].
Proof.
  unfold split. induction s as [|c s IH]; [done|]. simpl.
  intros [H1 H2]%orb_false_elim.
  destruct (split_go sep s) as [h t]. specialize (IH H2). simplify_eq.
  destruct (decide (c = sep)) as [->|]; [|done].
  exfalso. revert H1. rewrite bool_decide_eq_true_2 by done.
  by destruct s.
Qed.

End StringFacts.

(** ** The URL filter *)

Section FilterFacts.

Variable urlparse : string → outcome ParseResult.

Lemma startswith_spec (s p : string) :
  startswith s p = true ↔ ∃ rest, s = p +:+ rest.
Proof.
  revert s. induction p as [|b p IH]; intros s.
  - split; [intros _; by exists s|]. by destruct s.
  - destruct s as [|a s]; simpl.
    + split; [done|]. intros [rest Hrest]. by rewrite app_String in Hrest.
    + rewrite andb_true_iff, bool_decide_eq_true, IH. split.
      * intros [-> [rest ->]]. by exists rest.
      * intros [rest Hrest]. rewrite app_String in Hrest. simplify_eq. eauto.
Qed.

Lemma language_path_decide (lang url_path : string) :
  negb (startswith (lower url_path) ("/" +:+ lower lang +:+ "/"))
  && negb (bool_decide (lower url_path = "/" +:+ lower lang)) = false
  ↔ language_path lang url_path.
Proof.
  unfold language_path, equal_ignoring_case, begins_ignoring_case.
  rewrite !lower_app. change (lower "/") with "/".
  rewrite andb_false_iff, !negb_false_iff, bool_decide_eq_true, startswith_spec.
  tauto.
Qed.

(** C4: a URL whose network location is not exactly the configured
    domain is rejected, whatever its path and its other parts are. *)
Theorem foreign_authority_rejected (self : SiteScraper) (url : string)
    (parsed : ParseResult) :
  urlparse url = Returns parsed →
  netloc parsed ≠ domain self →
  _is_valid_url urlparse self url = Returns false.
Proof.
  intros Hparse Hne. unfold _is_valid_url.
  destruct (truthy url); [|done]. cbn [negb]. rewrite Hparse. run_outcome.
  by rewrite bool_decide_eq_false_2.
Qed.

(** C5: with a language constraint [lang], the filter accepts exactly
    the URLs that it accepts without the constraint and whose path,
    case ignored, is [/lang] or begins with [/lang/]; a URL with any
    other path is rejected. *)
Theorem language_constraint_exact (self : SiteScraper) (url lang : string) :
  language_set (language self) = Some lang →
  (_is_valid_url urlparse self url = Returns true
   ↔ _is_valid_url urlparse (set_language None self) url = Returns true
     ∧ ∃ parsed, urlparse url = Returns parsed ∧ language_path lang (path parsed))
  ∧ (∀ parsed, urlparse url = Returns parsed →
       ¬ language_path lang (path parsed) →
       _is_valid_url urlparse self url = Returns false).
Proof.
  intros Hlang. unfold _is_valid_url. rewrite Hlang.
  change (language_set (language (set_language None self))) with (@None string).
  change (domain (set_language None self)) with (domain self).
  destruct (truthy url); cbn [negb].
  2:{ split; [split; [done|by intros [? _]]|done]. }
  destruct (urlparse url) as [parsed|]; run_outcome.
  2:{ split; [split; [done|by intros [? _]]|done]. }
  pose proof (language_path_decide lang (path parsed)) as Hdec.
  destruct (bool_decide (netloc parsed = domain self)); cbn [negb].
  2:{ split; [split; [done|by intros [? _]]|done]. }
  destruct (contains url "#").
  { split; [split; [done|by intros [? _]]|done]. }
  destruct (existsb _ download_extensions).
  { split; [split; [done|by intros [? _]]|done]. }
  destruct (existsb _ social_patterns).
  { split; [split; [done|by intros [? _]]|done]. }
  destruct (negb _ && negb _) eqn:Htest.
  - split.
    + split; [done|]. intros [_ (p & Hp & Hpath)]. simplify_eq.
      apply Hdec in Hpath. congruence.
    + done.
  - split.
    + split; [|done]. intros _. split; [done|].
      exists parsed. split; [done|]. by apply Hdec.
    + intros p Hp Hnot. simplify_eq. destruct Hnot. by apply Hdec.
Qed.


End FilterFacts.

(** ** File names *)

(** C7: the substitution puts an underscore in the place of every
    character of the hostile set, keeps every other character where it
    is, and applying it twice is the same as applying it once. *)
Theorem clean_filename_spec (filename : string) :
  (∀ i, String.get i (clean_filename filename)
        = (λ c, if bool_decide (c ∈ hostile_chars) then "_"%char else c)
            <$> String.get i filename)
  ∧ clean_filename (clean_filename filename) = clean_filename filename.
Proof.
  split.
  - induction filename as [|c rest IH]; intros i; [done|].
    destruct i as [|i]; simpl; [done|]. apply IH.
  - induction filename as [|c rest IH]; [done|]. simpl. rewrite IH. f_equal.
    destruct (is_hostile c) eqn:Hc; [done|]. by rewrite Hc.
Qed.

(** ** Content extraction *)

Lemma bind_all_nil {A B} (f : A → list B) (l : list A) :
  (∀ x, x ∈ l → f x = []) → l ≫= f = [].
Proof.
  induction l as [|x l IH]; intros Hall; [done|].
  rewrite bind_cons, Hall by left. apply IH. intros y Hy. apply Hall. by right.
Qed.

(** C9: extraction always returns a document.  When the outer [try] is
    left by a fault, the document has no block: its lines are the title
    line and the URL line, or nothing when even the title could not be
    read.  This is so when no selector finds a container and the body
    cannot be reached. *)
Theorem extraction_never_raises (page : Page) (url : string) :
  (∃ document, _create_markdown_content page url = Returns document)
  ∧ (total_fault page url → blocks page url = [])
  ∧ (∀ page_title,
       title page = Returns page_title →
       (∀ selector, selector ∈ content_selectors →
          recover (find_elements_css page selector) [] = []) →
       find_body page = Raises →
       total_fault page url
       ∧ _create_markdown_content page url = Returns (join nl (preamble page_title url))).
Proof.
  split; [|split].
  - unfold _create_markdown_content.
    destruct (markdown_lines page url) as [content [[]|]]; eauto.
  - unfold total_fault, blocks, markdown_lines.
    destruct (title page) as [page_title|]; [|done].
    match goal with |- context [match ?m with [] => _ | _ :: _ => _ end] =>
      destruct m end.
    + destruct (find_body page); run_outcome; [done|].
      intros _. cbn [fst]. by rewrite drop_all.
    + run_outcome. done.
  - intros page_title Htitle Hnone Hbody.
    unfold total_fault, _create_markdown_content, markdown_lines.
    rewrite Htitle, (bind_all_nil _ _ Hnone), Hbody. by run_outcome.
Qed.

(** ** Saving and the content gate *)

Section SaveFacts.

Variable urlparse : string → outcome ParseResult.
Variable can_mkdir : string → bool.
Variable can_write : string → bool.

Lemma save_markdown_skips (self : SiteScraper) (fs : FileSystem)
    (content filename : string) :
  String.length (strip (actual_content content)) < 100 →
  _save_markdown can_mkdir can_write self fs content filename = Returns (false, fs).
Proof.
  intros Hshort. unfold _save_markdown.
  destruct (length (content_lines content) <=? 2); [done|].
  by rewrite (proj2 (Nat.ltb_lt _ _) Hshort).
Qed.

Lemma actual_content_few_lines (content : string) :
  length (content_lines content) ≤ 2 → actual_content content = "".
Proof.
  intros Hfew. unfold actual_content. by rewrite drop_ge.
Qed.

(** C3: a text of at most two lines, or whose lines from the third on
    hold fewer than 100 characters once trimmed, is skipped: the call
    returns [False] and the file system is as before.  A text that
    passes both tests goes on to the write: the call returns [True]
    only with the file written, [False] only because the write failed,
    and it raises only because the directory could not be made. *)
Theorem save_markdown_gate (self : SiteScraper) (fs : FileSystem)
    (content filename : string) :
  (length (content_lines content) ≤ 2
   ∨ String.length (strip (actual_content content)) < 100 →
   _save_markdown can_mkdir can_write self fs content filename = Returns (false, fs))
  ∧ (2 < length (content_lines content) →
     100 ≤ String.length (strip (actual_content content)) →
     match _save_markdown can_mkdir can_write self fs content filename with
     | Returns (true, fs') =>
         files fs' = <[file_path self filename := content]> (files fs)
         ∧ dirs fs' = dirs fs ∪ {["output"; output_path self]}
     | Returns (false, fs') =>
         can_write (file_path self filename) = false ∧ files fs' = files fs
     | Raises => can_mkdir (output_path self) = false
     end)
  ∧ (2 < length (content_lines content) →
     100 ≤ String.length (strip (actual_content content)) →
     can_mkdir (output_path self) = true →
     can_write (file_path self filename) = true →
     ∃ fs', _save_markdown can_mkdir can_write self fs content filename
            = Returns (true, fs')
            ∧ files fs' !! file_path self filename = Some content).
Proof.
  split; [|split].
  - intros [Hfew|Hshort]; apply save_markdown_skips; [|done].
    rewrite actual_content_few_lines by done. simpl. lia.
  - intros Hlines Hlong. unfold _save_markdown.
    rewrite (proj2 (Nat.leb_gt _ _) Hlines), (proj2 (Nat.ltb_ge _ _) Hlong).
    destruct (can_mkdir _); cbn [negb]; [|done].
    by destruct (can_write _) eqn:Hw.
  - intros Hlines Hlong Hdir Hw. unfold _save_markdown.
    rewrite (proj2 (Nat.leb_gt _ _) Hlines), (proj2 (Nat.ltb_ge _ _) Hlong).
    rewrite Hdir, Hw. cbn [negb]. eexists. split; [done|].
    cbn [files]. apply lookup_insert_eq.
Qed.

(** *** The text of the index *)

Lemma index_entries_urls (urls : list string) (entries : list (string * string)) :
  index_entries urlparse urls = Returns entries → entries.*1 = urls.
Proof.
  revert entries. induction urls as [|url rest IH]; intros entries; simpl.
  - by intros [= <-].
  - unfold index_entry. destruct (urlparse url) as [parsed|]; run_outcome; [|done].
    destruct (index_entries urlparse rest) as [tail|]; run_outcome; [|done].
    intros [= <-]. simpl. f_equal. by apply IH.
Qed.

Lemma index_entries_total (urls : list string) :
  (∀ url, url ∈ urls → ∃ parsed, urlparse url = Returns parsed) →
  ∃ entries, index_entries urlparse urls = Returns entries.
Proof.
  induction urls as [|url rest IH]; intros Hparse; simpl; [by eexists|].
  destruct (Hparse url) as [parsed Hp]; [left|].
  destruct IH as [tail Htail]; [intros u Hu; apply Hparse; by right|].
  unfold index_entry. rewrite Hp. run_outcome. rewrite Htail. run_outcome.
  by eexists.
Qed.

Lemma index_bullet_last (self : SiteScraper) (entry : string * string) :
  ∃ front, index_bullet self entry = front +:+ ")".
Proof.
  unfold index_bullet.
  exists ("- [" +:+ entry.1 +:+ "](" +:+ output_path self +:+ "/" +:+ entry.2 +:+ ".md").
  by rewrite !app_assoc_str.
Qed.

Lemma join_bullets_last (self : SiteScraper) (entries : list (string * string)) :
  entries ≠ [] →
  ∃ front, join nl (index_bullet self <$> entries) = front +:+ ")".
Proof.
  induction entries as [|entry rest IH]; [done|]. intros _.
  destruct rest as [|next rest].
  - apply index_bullet_last.
  - destruct IH as [front Hfront]; [done|].
    exists (index_bullet self entry +:+ nl +:+ front).
    rewrite fmap_cons, join_cons by done. rewrite Hfront.
    by rewrite !app_assoc_str.
Qed.

(** Below the heading and the empty line that follows it, the text of
    the index is the bullets. *)
Lemma actual_content_index (body front : string) :
  body = front +:+ ")" →
  actual_content (heading +:+ nl +:+ body) = body.
Proof.
  intros Hbody. unfold actual_content, content_lines.
  assert (strip (heading +:+ nl +:+ body) = heading +:+ nl +:+ body) as ->.
  { unfold strip. change (lstrip (heading +:+ nl +:+ body)) with (heading +:+ nl +:+ body).
    rewrite Hbody, <- !app_assoc_str. by apply rstrip_app_last. }
  change (heading +:+ nl +:+ body)
    with ("# Site Content Index" +:+ String LF ("" +:+ String LF body)).
  rewrite !split_app. change (split LF "# Site Content Index") with ["# Site Content Index"].
  change (split LF "") with [""]. cbn [app drop].
  apply join_split.
Qed.

Lemma join_heading_bullets (self : SiteScraper) (entries : list (string * string)) :
  entries ≠ [] →
  join nl (heading :: (index_bullet self <$> entries))
  = heading +:+ nl +:+ join nl (index_bullet self <$> entries).
Proof. intros Hne. apply join_cons. by destruct entries. Qed.

Lemma index_actual_content (self : SiteScraper) (entries : list (string * string)) :
  actual_content (join nl (heading :: (index_bullet self <$> entries)))
  = join nl (index_bullet self <$> entries).
Proof.
  destruct entries as [|entry rest]; [done|].
  rewrite join_heading_bullets by done.
  destruct (join_bullets_last self (entry :: rest)) as [front Hfront]; [done|].
  by eapply actual_content_index.
Qed.

Lemma create_index_unfold (self : SiteScraper) (fs : FileSystem)
    (entries : list (string * string)) :
  index_entries urlparse (sorted (visited_urls self)) = Returns entries →
  _create_index urlparse can_mkdir can_write self fs
  = saved ← _save_markdown can_mkdir can_write self fs
              (join nl (heading :: (index_bullet self <$> entries)))
              (index_filename self);
    mret saved.2.
Proof.
  intros Hentries. unfold _create_index, index_content. rewrite Hentries. by run_outcome.
Qed.

Lemma sorted_empty : sorted ∅ = [].
Proof. unfold sorted. by rewrite elements_empty. Qed.

Lemma sorted_singleton (url : string) : sorted {[url]} = [url].
Proof. unfold sorted. by rewrite elements_singleton. Qed.

(** The index is skipped when its bullets, trimmed, hold fewer than 100
    characters. *)
Lemma create_index_skips (self : SiteScraper) (fs : FileSystem)
    (entries : list (string * string)) :
  index_entries urlparse (sorted (visited_urls self)) = Returns entries →
  String.length (strip (join nl (index_bullet self <$> entries))) < 100 →
  _create_index urlparse can_mkdir can_write self fs = Returns fs.
Proof.
  intros Hentries Hshort.
  rewrite (create_index_unfold _ _ _ Hentries), save_markdown_skips; [done|].
  by rewrite index_actual_content.
Qed.

(** C8: the bullets of the index follow the visited URLs in ascending
    order of [str], each URL once, whatever the order in which the URLs
    were found. *)
Theorem index_sorted_by_url (self : SiteScraper) (lines : list string) :
  index_content urlparse self = Returns lines →
  ∃ entries,
    lines = heading :: (index_bullet self <$> entries)
    ∧ Sorted String.le entries.*1
    ∧ NoDup entries.*1
    ∧ (∀ url, url ∈ entries.*1 ↔ url ∈ visited_urls self)
    ∧ ∀ found other : list string,
        list_to_set found = visited_urls self →
        other ≡ₚ found →
        index_content urlparse (set_visited_urls (list_to_set other) self)
        = Returns lines.
Proof.
  unfold index_content at 1. intros Hlines.
  destruct (index_entries urlparse (sorted (visited_urls self))) as [entries|] eqn:Hentries;
    run_outcome; [|done].
  injection Hlines as <-. exists entries.
  apply index_entries_urls in Hentries as Hurls.
  assert (sorted (visited_urls self) ≡ₚ elements (visited_urls self)) as Hperm
    by apply merge_sort_Permutation.
  rewrite Hurls. split_and!.
  - done.
  - apply (Sorted_merge_sort _).
  - rewrite Hperm. apply NoDup_elements.
  - intros url. by rewrite Hperm, elem_of_elements.
  - intros found other Hfound Hother.
    assert (list_to_set other = visited_urls self) as Hsame.
    { rewrite <- Hfound. apply set_eq. intros u.
      by rewrite !elem_of_list_to_set, Hother. }
    unfold index_content, set_visited_urls. cbn [visited_urls].
    rewrite Hsame, Hentries. by run_outcome.
Qed.

End SaveFacts.

(** ** The frontier and the crawl *)

Section CrawlFacts.

Variable urlparse : string → outcome ParseResult.
Variable driver_get : nat → string → outcome Page.
Variable can_mkdir : string → bool.
Variable can_write : string → bool.

Local Abbreviation pass := (visit urlparse driver_get can_mkdir can_write).
Local Abbreviation loop := (scrape_loop urlparse driver_get can_mkdir can_write).
Local Abbreviation all_parse := (all_parse urlparse).

Lemma enqueue_visited_urls (self : SiteScraper) (link : string) :
  visited_urls (enqueue self link) = visited_urls self.
Proof. unfold enqueue. by destruct (bool_decide _). Qed.

Lemma enqueue_all_visited_urls (self : SiteScraper) (links : list string) :
  visited_urls (foldl enqueue self links) = visited_urls self.
Proof.
  revert self. induction links as [|link links IH]; intros self; [done|].
  simpl. by rewrite IH, enqueue_visited_urls.
Qed.

Lemma enqueue_language (self : SiteScraper) (link : string) :
  language (enqueue self link) = language self.
Proof. unfold enqueue. by destruct (bool_decide _). Qed.

Lemma enqueue_all_language (self : SiteScraper) (links : list string) :
  language (foldl enqueue self links) = language self.
Proof.
  revert self. induction links as [|link links IH]; intros self; [done|].
  simpl. by rewrite IH, enqueue_language.
Qed.

(** A new object has visited nothing and has its base URL pending. *)
Lemma init_state (getenv : string → option string)
    (base_url_arg language_arg : option string) (scraper : SiteScraper) :
  __init__ urlparse getenv base_url_arg language_arg = Returns scraper →
  visited_urls scraper = ∅
  ∧ urls_to_visit scraper = [base_url scraper]
  ∧ all_parse (visited_urls scraper).
Proof.
  unfold __init__.
  destruct (py_or base_url_arg (getenv "BASE_URL")) as [b|]; [|done].
  destruct (truthy b); cbn [negb]; [|done].
  destruct (urlparse b) as [parsed|]; run_outcome; [|done].
  intros [= <-]. cbn [visited_urls urls_to_visit base_url].
  split_and!; [done..|]. intros url Hurl. by apply not_elem_of_empty in Hurl.
Qed.

(** C1, as the code has it: adding a link leaves the queue as it was
    exactly when the link is in the visited set.  A link that was not
    visited is appended at the end, also when the queue already holds
    it; the copies that are stale when the loop pops them are skipped. *)
Theorem enqueue_unchanged_iff_visited (scraper : SiteScraper) (link : string) :
  (urls_to_visit (enqueue scraper link) = urls_to_visit scraper
   ↔ link ∈ visited_urls scraper)
  ∧ (link ∈ visited_urls scraper → enqueue scraper link = scraper)
  ∧ (link ∉ visited_urls scraper →
     urls_to_visit (enqueue scraper link) = urls_to_visit scraper ++ [link])
  ∧ (∀ st, link ∈ visited_urls (self st) → pass st link = st).
Proof.
  split_and!.
  - unfold enqueue. destruct (bool_decide_reflect (link ∈ visited_urls scraper)) as [Hin|Hout].
    + done.
    + split; [|done]. cbn [set_urls_to_visit urls_to_visit].
      intros Heq. apply (f_equal length) in Heq. rewrite length_app in Heq.
      simpl in Heq. lia.
  - intros Hin. unfold enqueue. by rewrite bool_decide_eq_true_2.
  - intros Hout. unfold enqueue. by rewrite bool_decide_eq_false_2.
  - intros st Hin. unfold visit. by rewrite bool_decide_eq_true_2.
Qed.

(** *** One pass of the loop *)

Lemma save_markdown_unqualified (self : SiteScraper) (fs : FileSystem)
    (content filename : string) :
  has_meaningful_content content = false →
  _save_markdown can_mkdir can_write self fs content filename = Returns (false, fs).
Proof.
  unfold has_meaningful_content, _save_markdown.
  destruct (length (content_lines content) <=? 2); [done|].
  by destruct (String.length (strip (actual_content content)) <? 100).
Qed.

(** What a pass does to the visited set: nothing, or it adds the
    current URL, which then parses. *)
Lemma visit_visited_urls (st : Crawl) (current_url : string) :
  visited_urls (self (pass st current_url)) = visited_urls (self st)
  ∨ (visited_urls (self (pass st current_url))
       = visited_urls (self st) ∪ {[current_url]}
     ∧ ∃ parsed, urlparse current_url = Returns parsed).
Proof.
  unfold visit.
  destruct (bool_decide _); [by left|].
  destruct (driver_get _ _) as [page|]; run_outcome; [|by left].
  destruct (_create_markdown_content _ _) as [content|]; run_outcome; [|by left].
  destruct (urlparse current_url) as [parsed|]; run_outcome; [|by left].
  destruct (_save_markdown _ _ _ _ _ _) as [saved|]; run_outcome; [|by left].
  right. cbn [self]. rewrite enqueue_all_visited_urls. eauto.
Qed.

Lemma visit_language (st : Crawl) (current_url : string) :
  language (self (pass st current_url)) = language (self st).
Proof.
  unfold visit.
  destruct (bool_decide _); [done|].
  destruct (driver_get _ _) as [page|]; run_outcome; [|done].
  destruct (_create_markdown_content _ _) as [content|]; run_outcome; [|done].
  destruct (urlparse current_url) as [parsed|]; run_outcome; [|done].
  destruct (_save_markdown _ _ _ _ _ _) as [saved|]; run_outcome; [|done].
  cbn [self]. by rewrite enqueue_all_language.
Qed.

(** A pass either counts a page, or leaves the count and takes one URL
    off the queue. *)
Lemma visit_progress (st : Crawl) (current_url : string) (rest : list string) :
  page_count (pass (pop st rest) current_url) = S (page_count st)
  ∨ (page_count (pass (pop st rest) current_url) = page_count st
     ∧ urls_to_visit (self (pass (pop st rest) current_url)) = rest).
Proof.
  unfold visit.
  destruct (bool_decide _); [by right|].
  destruct (driver_get _ _) as [page|]; run_outcome; [|by right].
  destruct (_create_markdown_content _ _) as [content|]; run_outcome; [|by right].
  destruct (urlparse current_url) as [parsed|]; run_outcome; [|by right].
  destruct (_save_markdown _ _ _ _ _ _) as [saved|]; run_outcome; [|by right].
  by left.
Qed.

(** A page whose text does not pass the gate is marked as visited and
    nothing is written for it. *)
Lemma visit_unqualified (st : Crawl) (current_url content : string)
    (page : Page) (parsed : ParseResult) :
  current_url ∉ visited_urls (self st) →
  driver_get (clock st) current_url = Returns page →
  _create_markdown_content page current_url = Returns content →
  has_meaningful_content content = false →
  urlparse current_url = Returns parsed →
  disk (pass st current_url) = disk st
  ∧ current_url ∈ visited_urls (self (pass st current_url)).
Proof.
  intros Hnew Hpage Hcontent Hgate Hparse. unfold visit.
  rewrite bool_decide_eq_false_2 by done.
  rewrite Hpage. run_outcome. rewrite Hcontent. run_outcome.
  rewrite Hparse. run_outcome.
  rewrite save_markdown_unqualified by done. run_outcome.
  cbn [disk self snd]. split; [done|].
  rewrite enqueue_all_visited_urls. cbn [set_visited_urls visited_urls].
  set_solver.
Qed.

(** *** The whole loop *)

Lemma scrape_loop_visited_urls (fuel : nat) (max_pages : option nat)
    (st st' : Crawl) :
  loop fuel max_pages st = Some st' →
  visited_urls (self st) ⊆ visited_urls (self st').
Proof.
  revert st. induction fuel as [|fuel IH]; intros st; simpl.
  - destruct (urls_to_visit (self st)); [by intros [= ->]|].
    destruct (within_budget _ _); [done|by intros [= ->]].
  - destruct (urls_to_visit (self st)) as [|current_url rest]; [by intros [= ->]|].
    destruct (within_budget _ _); [|by intros [= ->]].
    intros Hloop%IH. etrans; [|exact Hloop].
    destruct (visit_visited_urls (pop st rest) current_url) as [->|[-> _]];
      cbn [pop self set_urls_to_visit visited_urls]; set_solver.
Qed.

Lemma scrape_loop_language (fuel : nat) (max_pages : option nat)
    (st st' : Crawl) :
  loop fuel max_pages st = Some st' →
  language (self st') = language (self st).
Proof.
  revert st. induction fuel as [|fuel IH]; intros st; simpl.
  - destruct (urls_to_visit (self st)); [by intros [= ->]|].
    destruct (within_budget _ _); [done|by intros [= ->]].
  - destruct (urls_to_visit (self st)) as [|current_url rest]; [by intros [= ->]|].
    destruct (within_budget _ _); [|by intros [= ->]].
    intros Hloop%IH. by rewrite Hloop, visit_language.
Qed.

Lemma scrape_loop_all_parse (fuel : nat) (max_pages : option nat)
    (st st' : Crawl) :
  loop fuel max_pages st = Some st' →
  all_parse (visited_urls (self st)) →
  all_parse (visited_urls (self st')).
Proof.
  revert st. induction fuel as [|fuel IH]; intros st; simpl.
  - destruct (urls_to_visit (self st)); [by intros [= ->]|].
    destruct (within_budget _ _); [done|by intros [= ->]].
  - destruct (urls_to_visit (self st)) as [|current_url rest]; [by intros [= ->]|].
    destruct (within_budget _ _); [|by intros [= ->]].
    intros Hloop Hinv. apply (IH _ Hloop).
    destruct (visit_visited_urls (pop st rest) current_url) as [->|[-> Hparse]];
      cbn [pop self set_urls_to_visit visited_urls]; [done|].
    intros url [Hold| ->%elem_of_singleton]%elem_of_union; [by apply Hinv|done].
Qed.

Lemma index_content_returns (self : SiteScraper) :
  all_parse (visited_urls self) →
  ∃ lines, index_content urlparse self = Returns lines.
Proof.
  intros Hinv. unfold index_content.
  destruct (index_entries_total urlparse (sorted (visited_urls self))) as [entries ->].
  - intros url Hurl. apply Hinv.
    unfold sorted in Hurl. rewrite merge_sort_Permutation in Hurl.
    by apply elem_of_elements.
  - run_outcome. by eexists.
Qed.

(** With a page budget the loop ends. *)
Lemma scrape_loop_terminates (m : nat) (st : Crawl) :
  ∃ fuel st', loop fuel (Some m) st = Some st'.
Proof.
  remember (m - page_count st) as budget eqn:Hbudget.
  revert st Hbudget. induction budget as [budget IHb] using lt_wf_ind.
  intros st Hbudget.
  remember (length (urls_to_visit (self st))) as pending eqn:Hpending.
  revert st Hbudget Hpending. induction pending as [pending IHp] using lt_wf_ind.
  intros st Hbudget Hpending.
  destruct (urls_to_visit (self st)) as [|current_url rest] eqn:Hqueue.
  { exists 0, st. simpl. by rewrite Hqueue. }
  destruct (page_count st <? m) eqn:Hwithin.
  2:{ exists 0, st. simpl. by rewrite Hqueue, Hwithin. }
  apply Nat.ltb_lt in Hwithin.
  destruct (visit_progress st current_url rest) as [Hcount|[Hcount Hrest]].
  - destruct (IHb (m - page_count (pass (pop st rest) current_url)))
      with (st := pass (pop st rest) current_url) as (fuel & st' & Hloop);
      [lia|done|].
    exists (S fuel), st'. simpl. rewrite Hqueue.
    by rewrite (proj2 (Nat.ltb_lt _ _) Hwithin).
  - destruct (IHp (length rest)) with (st := pass (pop st rest) current_url)
      as (fuel & st' & Hloop); [simpl in Hpending; lia|lia|by rewrite Hrest|].
    exists (S fuel), st'. simpl. rewrite Hqueue.
    by rewrite (proj2 (Nat.ltb_lt _ _) Hwithin).
Qed.

Lemma index_entries_elem (urls : list string) (entries : list (string * string))
    (url : string) (parsed : ParseResult) :
  index_entries urlparse urls = Returns entries →
  url ∈ urls →
  urlparse url = Returns parsed →
  (url, slot_name (path parsed)) ∈ entries.
Proof.
  revert entries. induction urls as [|head rest IH]; intros entries; simpl.
  - intros _ Hin. by apply elem_of_nil in Hin.
  - unfold index_entry. destruct (urlparse head) as [p|] eqn:Hhead; run_outcome; [|done].
    destruct (index_entries urlparse rest) as [tail|]; run_outcome; [|done].
    intros [= <-] [->|Hin]%elem_of_cons Hparse.
    + rewrite Hparse in Hhead. injection Hhead as ->. left.
    + right. by apply IH.
Qed.

(** C2, as the code has it: a page whose text does not pass the gate
    is not written, yet it is marked as visited, and the index built
    when the loop ends has a bullet for it, as for every visited URL. *)
Theorem index_lists_every_visited_page (st st' : Crawl)
    (current_url content : string) (page : Page) (parsed : ParseResult)
    (fuel : nat) (max_pages : option nat) (lines : list string) :
  current_url ∉ visited_urls (self st) →
  driver_get (clock st) current_url = Returns page →
  _create_markdown_content page current_url = Returns content →
  has_meaningful_content content = false →
  urlparse current_url = Returns parsed →
  loop fuel max_pages (pass st current_url) = Some st' →
  index_content urlparse (self st') = Returns lines →
  disk (pass st current_url) = disk st
  ∧ index_bullet (self st') (current_url, slot_name (path parsed)) ∈ lines
  ∧ length lines = S (size (visited_urls (self st'))).
Proof.
  intros Hnew Hpage Hcontent Hgate Hparse Hloop Hlines.
  destruct (visit_unqualified st current_url content page parsed) as [Hdisk Hin];
    [done..|].
  apply scrape_loop_visited_urls in Hloop. apply Hloop in Hin.
  unfold index_content in Hlines.
  destruct (index_entries urlparse (sorted (visited_urls (self st')))) as [entries|] eqn:Hentries;
    run_outcome; [|done].
  injection Hlines as <-. split_and!; [done| |].
  - right. apply list_elem_of_fmap_2.
    eapply index_entries_elem; [done| |done].
    unfold sorted. rewrite merge_sort_Permutation. by apply elem_of_elements.
  - apply index_entries_urls in Hentries.
    cbn [length]. f_equal. rewrite length_fmap, <- (length_fmap fst), Hentries.
    unfold sorted. by rewrite merge_sort_Permutation.
Qed.

Lemma save_markdown_returns (self : SiteScraper) (fs : FileSystem)
    (content filename : string) :
  can_mkdir (output_path self) = true →
  ∃ saved, _save_markdown can_mkdir can_write self fs content filename = Returns saved.
Proof.
  intros Hdir. unfold _save_markdown. rewrite Hdir. cbn [negb].
  destruct (length (content_lines content) <=? 2); [by eexists|].
  destruct (String.length (strip (actual_content content)) <? 100); [by eexists|].
  destruct (can_write _); by eexists.
Qed.

(** With a page budget and an output directory that can be made, the
    crawl reaches its end and builds the index. *)
Lemma scrape_site_returns (m : nat) (scraper : SiteScraper) (fs : FileSystem) :
  all_parse (visited_urls scraper) →
  can_mkdir (output_path scraper) = true →
  ∃ fuel st,
    scrape_site urlparse driver_get can_mkdir can_write fuel (Some m) scraper fs
    = Some (Returns st).
Proof.
  intros Hparse Hdir. unfold scrape_site.
  destruct (scrape_loop_terminates m
              {| self := scraper; page_count := 0; disk := fs; clock := 0 |})
    as (fuel & st & Hloop).
  exists fuel. rewrite Hloop.
  destruct (index_content_returns (self st)) as [lines Hlines].
  { by apply (scrape_loop_all_parse _ _ _ _ Hloop). }
  unfold _create_index. rewrite Hlines. run_outcome.
  destruct (save_markdown_returns (self st) (disk st) (join nl lines)
              (index_filename (self st))) as [saved ->].
  { unfold output_path in *.
    by rewrite (scrape_loop_language _ _ _ _ Hloop). }
  run_outcome. by eexists.
Qed.

(** C10: the index goes through the same gate as a page.  When the
    lines of the index from the third on, which are the bullets, hold
    fewer than 100 characters once trimmed, [_create_index] leaves the
    file system as it found it, and the crawl ends with the files that
    the loop left; this is the case when no URL was visited, and when
    one URL was visited and its bullet is shorter than 100 characters. *)
Theorem index_subject_to_gate (scraper : SiteScraper) (fs : FileSystem) :
  (∀ lines, index_content urlparse scraper = Returns lines →
     String.length (strip (actual_content (join nl lines))) < 100 →
     _create_index urlparse can_mkdir can_write scraper fs = Returns fs)
  ∧ (∀ entries,
       index_entries urlparse (sorted (visited_urls scraper)) = Returns entries →
       String.length (strip (join nl (index_bullet scraper <$> entries))) < 100 →
       _create_index urlparse can_mkdir can_write scraper fs = Returns fs)
  ∧ (visited_urls scraper = ∅ →
     _create_index urlparse can_mkdir can_write scraper fs = Returns fs)
  ∧ (∀ url parsed,
       visited_urls scraper = {[url]} →
       urlparse url = Returns parsed →
       String.length (index_bullet scraper (url, slot_name (path parsed))) < 100 →
       _create_index urlparse can_mkdir can_write scraper fs = Returns fs)
  ∧ (∀ fuel max_pages st entries,
       loop fuel max_pages
         {| self := scraper; page_count := 0; disk := fs; clock := 0 |} = Some st →
       index_entries urlparse (sorted (visited_urls (self st))) = Returns entries →
       String.length (strip (join nl (index_bullet (self st) <$> entries))) < 100 →
       scrape_site urlparse driver_get can_mkdir can_write fuel max_pages scraper fs
       = Some (Returns st)).
Proof.
  split_and!.
  - intros lines Hlines Hshort. unfold _create_index. rewrite Hlines. run_outcome.
    by rewrite save_markdown_skips.
  - apply create_index_skips.
  - intros Hnone. apply (create_index_skips _ _ _ _ _ []).
    + by rewrite Hnone, sorted_empty.
    + simpl. lia.
  - intros url parsed Hone Hparse Hshort.
    apply (create_index_skips _ _ _ _ _ [(url, slot_name (path parsed))]).
    + rewrite Hone, sorted_singleton. simpl. unfold index_entry.
      rewrite Hparse. by run_outcome.
    + eapply Nat.le_lt_trans; [apply strip_length|done].
  - intros fuel max_pages st entries Hloop Hentries Hshort.
    unfold scrape_site. rewrite Hloop.
    rewrite (create_index_skips _ _ _ _ _ _ Hentries Hshort). run_outcome.
    by destruct st.
Qed.

End CrawlFacts.

(** ** The properties on the demonstration site *)

Import Demo.

(** The crawl of the two pages: the home page is written, the team page
    is not, and the index names both. *)
Lemma crawl_result :
  ∃ st, crawl = Some (Returns st)
    ∧ self st = after_team
    ∧ page_count st = 2
    ∧ files (disk st) = {[ "output/index.md" := home_text;
                           "output/site_index.md" := index_text ]}.
Proof. eexists. split; [by vm_compute|]. by vm_compute. Qed.

(** The first pass leaves one pending URL. *)
Lemma first_pass :
  self (visit urlparse_model site always always
          {| self := set_urls_to_visit [] scraper; page_count := 0;
             disk := empty_fs; clock := 0 |} home_url)
  = after_home.
Proof. by vm_compute. Qed.

(** C1, counterexample: the team page is pending and not visited;
    adding it once more puts a second copy in the queue. *)
Lemma enqueue_duplicates_queued_link :
  team_url ∈ urls_to_visit after_home
  ∧ urls_to_visit (enqueue after_home team_url) = [team_url; team_url]
  ∧ urls_to_visit (enqueue after_home team_url) ≠ urls_to_visit after_home.
Proof.
  split; [by left|]. split; [by vm_compute|]. by vm_compute.
Qed.

(** C1, witness: the home page is visited, and adding it changes
    nothing. *)
Lemma enqueue_unchanged_iff_visited_witness :
  home_url ∈ visited_urls after_home
  ∧ enqueue after_home home_url = after_home.
Proof.
  assert (home_url ∈ visited_urls after_home) as Hin.
  { apply (bool_decide_unpack _). by vm_compute. }
  split; [exact Hin|].
  exact (proj1 (proj2 (enqueue_unchanged_iff_visited urlparse_model site always always
                  after_home home_url)) Hin).
Defined.

(** C2, counterexample: the text of the team page does not pass the
    gate and no file is written for it, but the index that the crawl
    writes has its bullet. *)
Lemma index_lists_unsaved_page :
  ∃ st, crawl = Some (Returns st)
    ∧ _create_markdown_content team_page team_url = Returns team_text
    ∧ has_meaningful_content team_text = false
    ∧ files (disk st) !! "output/about-the-team.md" = None
    ∧ files (disk st) !! "output/site_index.md" = Some index_text
    ∧ contains index_text
        "- [https://example.com/about-the-team](output/about-the-team.md)" = true.
Proof.
  eexists. split; [by vm_compute|]. split_and!; by vm_compute.
Qed.

(** C2, witness: the pass over the team page and the index that
    follows. *)
Lemma index_lists_every_visited_page_witness :
  has_meaningful_content team_text = false
  ∧ disk (visit urlparse_model site always always before_team team_url)
    = disk before_team
  ∧ index_bullet (self finished) (team_url, "about-the-team")
      ∈ [heading; "- [https://example.com/](output/index.md)";
         "- [https://example.com/about-the-team](output/about-the-team.md)"]
  ∧ 3 = S (size (visited_urls (self finished))).
Proof.
  split; [by vm_compute|].
  refine (index_lists_every_visited_page urlparse_model site always always
            before_team finished team_url team_text team_page
            {| scheme := "https"; netloc := "example.com"; path := "/about-the-team";
               params := ""; query := ""; fragment := "" |}
            3 (Some 100) _ _ _ _ _ _ _ _).
  - apply (bool_decide_unpack _). by vm_compute.
  - by vm_compute.
  - by vm_compute.
  - by vm_compute.
  - by vm_compute.
  - by vm_compute.
  - by vm_compute.
Defined.

(** C3, witness: the text of the team page is skipped, the text of the
    home page is written. *)
Lemma save_markdown_gate_witness :
  _save_markdown always always scraper empty_fs team_text "about-the-team"
  = Returns (false, empty_fs)
  ∧ ∃ fs', _save_markdown always always scraper empty_fs home_text "index"
           = Returns (true, fs')
           ∧ files fs' !! file_path scraper "index" = Some home_text.
Proof.
  pose proof (save_markdown_gate always always scraper empty_fs team_text
                "about-the-team") as (Hskip & _ & _).
  pose proof (save_markdown_gate always always scraper empty_fs home_text
                "index") as (_ & _ & Hwrite).
  split.
  - apply Hskip. right. vm_compute. lia.
  - apply Hwrite; [vm_compute; lia|vm_compute; lia|done|done].
Defined.

(** C4, witness: a subdomain of the configured domain is rejected. *)
Lemma foreign_authority_rejected_witness :
  netloc <$> Some {| scheme := "https"; netloc := "www.example.com"; path := "/";
                     params := ""; query := ""; fragment := "" |}
    ≠ Some (domain scraper)
  ∧ _is_valid_url urlparse_model scraper "https://www.example.com/" = Returns false.
Proof.
  split; [done|].
  apply (foreign_authority_rejected urlparse_model scraper "https://www.example.com/"
           {| scheme := "https"; netloc := "www.example.com"; path := "/";
              params := ""; query := ""; fragment := "" |}); [by vm_compute|done].
Defined.

(** C5, witness: under the language [en], a path that begins with
    [/EN/] is accepted and a path under [/de/] is rejected. *)
Lemma language_constraint_exact_witness :
  language_set (language english) = Some "en"
  ∧ _is_valid_url urlparse_model english "https://example.com/EN/contact" = Returns true
  ∧ _is_valid_url urlparse_model english "https://example.com/de/contact" = Returns false.
Proof.
  split; [done|]. split.
  - apply (language_constraint_exact urlparse_model english
             "https://example.com/EN/contact" "en"); [done|].
    split; [by vm_compute|]. eexists. split; [by vm_compute|].
    right. by exists "contact".
  - eapply (language_constraint_exact urlparse_model english
              "https://example.com/de/contact" "en"); [done|by vm_compute|].
    intros [Heq|[rest Hrest]]; vm_compute in *; congruence.
Defined.


(** The suffix test reads the query string too. *)
Lemma pdf_in_query_rejected :
  path <$> Some {| scheme := "https"; netloc := "example.com"; path := "/view";
                   params := ""; query := "file=a.pdf"; fragment := "" |}
    = Some "/view"
  ∧ urlparse_model "https://example.com/view?file=a.pdf"
    = Returns {| scheme := "https"; netloc := "example.com"; path := "/view";
                 params := ""; query := "file=a.pdf"; fragment := "" |}
  ∧ _is_valid_url urlparse_model scraper "https://example.com/view?file=a.pdf"
    = Returns false.
Proof. split_and!; by vm_compute. Qed.


(** C8, witness: the index of the two visited pages. *)
Lemma index_sorted_by_url_witness :
  ∃ entries,
    [heading; "- [https://example.com/](output/index.md)";
     "- [https://example.com/about-the-team](output/about-the-team.md)"]
    = heading :: (index_bullet after_team <$> entries)
    ∧ Sorted String.le entries.*1
    ∧ NoDup entries.*1
    ∧ (∀ url, url ∈ entries.*1 ↔ url ∈ visited_urls after_team)
    ∧ ∀ found other : list string,
        list_to_set found = visited_urls after_team →
        other ≡ₚ found →
        index_content urlparse_model (set_visited_urls (list_to_set other) after_team)
        = Returns [heading; "- [https://example.com/](output/index.md)";
             "- [https://example.com/about-the-team](output/about-the-team.md)"].
Proof.
  apply (index_sorted_by_url urlparse_model after_team). by vm_compute.
Defined.

(** C9, witness: a page without containers and without a reachable body
    gives the title line and the URL line. *)
Lemma extraction_never_raises_witness :
  total_fault (broken_page "Team") team_url
  ∧ blocks (broken_page "Team") team_url = []
  ∧ _create_markdown_content (broken_page "Team") team_url
    = Returns ("# Team" +:+ nl +:+ nl
               +:+ "*Original URL: https://example.com/about-the-team*" +:+ nl).
Proof.
  pose proof (extraction_never_raises (broken_page "Team") team_url)
    as (_ & Hblocks & Hbody).
  destruct (Hbody "Team") as [Hfault Hdoc]; [done|done|done|].
  split; [exact Hfault|]. split; [by apply Hblocks|exact Hdoc].
Defined.

(** C10, witness: with only the home page visited, the bullet is 41
    characters long and no index is written; a crawl whose browser loads
    no page visits nothing and writes nothing. *)
Lemma index_subject_to_gate_witness :
  String.length (index_bullet after_home (home_url, "index")) = 41
  ∧ _create_index urlparse_model always always after_home empty_fs = Returns empty_fs
  ∧ scrape_site urlparse_model offline always always 1 None scraper empty_fs
    = Some (Returns {| self := set_urls_to_visit [] scraper; page_count := 0;
                       disk := empty_fs; clock := 1 |}).
Proof.
  split; [by vm_compute|].
  pose proof (index_subject_to_gate urlparse_model site always always
                after_home empty_fs) as (_ & _ & _ & Hone & _).
  pose proof (index_subject_to_gate urlparse_model offline always always
                scraper empty_fs) as (_ & _ & _ & _ & Hcrawl).
  split.
  - eapply (Hone home_url); [by vm_compute|by vm_compute|vm_compute; lia].
  - apply (Hcrawl 1 None _ []); [by vm_compute|by vm_compute|vm_compute; lia].
Defined.

(** ** Cleaned text *)

Section CleanText.

Lemma control_not_space (c : ascii) :
  is_markdown_control c = true → isspace c = false.
Proof. by destruct c as [[] [] [] [] [] [] [] []]. Qed.

(** Escaping leaves the white space where it is, so it commutes with the
    three white-space passes. *)
Lemma escape_head_not_space (c : ascii) (s : string) :
  isspace c = false →
  ∃ d rest, escape_markdown (String c s) = String d rest ∧ isspace d = false.
Proof.
  intros Hc. simpl. destruct (is_markdown_control c); eauto.
Qed.

Lemma lstrip_escape (s : string) :
  lstrip (escape_markdown s) = escape_markdown (lstrip s).
Proof.
  induction s as [|c s IH]; [done|]. simpl.
  destruct (isspace c) eqn:Hc.
  - destruct (is_markdown_control c) eqn:Hm.
    + apply control_not_space in Hm. congruence.
    + simpl. by rewrite Hc.
  - destruct (escape_head_not_space c s Hc) as (d & rest & Heq & Hd).
    simpl in Heq. rewrite Heq. simpl. by rewrite Hd.
Qed.

Lemma escape_empty (s : string) : escape_markdown s = "" → s = "".
Proof. destruct s as [|c s]; [done|]. simpl. by destruct (is_markdown_control c). Qed.

Lemma rstrip_escape (s : string) :
  rstrip (escape_markdown s) = escape_markdown (rstrip s).
Proof.
  induction s as [|c s IH]; [done|].
  assert (rstrip (String c (escape_markdown s)) = escape_markdown (rstrip (String c s))
          ∨ is_markdown_control c = true) as Hplain.
  { destruct (is_markdown_control c) eqn:Hm; [by right|left].
    simpl. rewrite IH. destruct (rstrip s) as [|x r] eqn:Hr; simpl.
    - destruct (isspace c); simpl; by rewrite ?Hm.
    - rewrite Hm. by destruct (is_markdown_control x). }
  simpl. destruct (is_markdown_control c) eqn:Hm.
  - pose proof (control_not_space c Hm) as Hc.
    change (rstrip (String "\" (String c (escape_markdown s))))
      with (match rstrip (String c (escape_markdown s)) with
            | "" => "\" | r => String "\" r end).
    simpl. rewrite IH. destruct (rstrip s) as [|x r] eqn:Hr; simpl.
    + rewrite Hc. simpl. by rewrite Hm.
    + rewrite Hm. by destruct (is_markdown_control x).
  - destruct Hplain as [Hplain|?]; [|congruence]. exact Hplain.
Qed.

Lemma collapse_escape (s : string) :
  collapse_ws (escape_markdown s) = escape_markdown (collapse_ws s).
Proof.
  induction s as [|c s IH]; [done|].
  destruct (isspace c) eqn:Hc.
  - assert (is_markdown_control c = false) as Hm.
    { destruct (is_markdown_control c) eqn:Hm; [|done].
      apply control_not_space in Hm. congruence. }
    change (escape_markdown (String c s)) with
      (if is_markdown_control c then String "\" (String c (escape_markdown s))
       else String c (escape_markdown s)).
    rewrite Hm.
    destruct s as [|c' s']; [simpl; by rewrite Hc|].
    destruct (isspace c') eqn:Hc'.
    + change (collapse_ws (String c (String c' s'))) with
        (if isspace c then if isspace c' then collapse_ws (String c' s')
                           else String " " (collapse_ws (String c' s'))
         else String c (collapse_ws (String c' s'))).
      rewrite Hc, Hc', <- IH.
      assert (is_markdown_control c' = false) as Hm'.
      { destruct (is_markdown_control c') eqn:Hm'; [|done].
        apply control_not_space in Hm'. congruence. }
      cbn [escape_markdown]. rewrite Hm'. simpl. by rewrite Hc, Hc'.
    + change (collapse_ws (String c (String c' s'))) with
        (if isspace c then if isspace c' then collapse_ws (String c' s')
                           else String " " (collapse_ws (String c' s'))
         else String c (collapse_ws (String c' s'))).
      rewrite Hc, Hc'.
      change (escape_markdown (String " " (collapse_ws (String c' s'))))
        with (String " " (escape_markdown (collapse_ws (String c' s')))).
      rewrite <- IH.
      destruct (escape_head_not_space c' s' Hc') as (d & rest & Heq & Hd).
      rewrite Heq. simpl. by rewrite Hc, Hd.
  - cbn [escape_markdown collapse_ws]. rewrite Hc. cbn [escape_markdown].
    destruct (is_markdown_control c) eqn:Hm.
    + simpl. rewrite Hc. f_equal. f_equal. exact IH.
    + simpl. rewrite Hc. f_equal. exact IH.
Qed.

Lemma collapse_cons (c c' : ascii) (s : string) :
  collapse_ws (String c (String c' s))
  = if isspace c then
      if isspace c' then collapse_ws (String c' s)
      else String " " (collapse_ws (String c' s))
    else String c (collapse_ws (String c' s)).
Proof. reflexivity. Qed.

Lemma collapse_head (c : ascii) (s : string) :
  isspace c = false → collapse_ws (String c s) = String c (collapse_ws s).
Proof. intros Hc. simpl. by rewrite Hc. Qed.

Lemma collapse_idemp (s : string) : collapse_ws (collapse_ws s) = collapse_ws s.
Proof.
  induction s as [|c s IH]; [done|].
  destruct (isspace c) eqn:Hc.
  - destruct s as [|c' s']; [simpl; by rewrite Hc|].
    rewrite collapse_cons, Hc. destruct (isspace c') eqn:Hc'; [exact IH|].
    rewrite (collapse_head c' s' Hc') in *.
    rewrite collapse_cons. change (isspace " ") with true. cbv iota. rewrite Hc'.
    by rewrite IH.
  - rewrite !collapse_head by done. by rewrite IH.
Qed.

(** The three statements of a string without white space at either end. *)
Lemma lstrip_fix (c : ascii) (s : string) :
  isspace c = false → lstrip (String c s) = String c s.
Proof. intros Hc. simpl. by rewrite Hc. Qed.

Lemma lstrip_lstrip (s : string) : lstrip (lstrip s) = lstrip s.
Proof.
  induction s as [|c s IH]; [done|]. simpl.
  destruct (isspace c) eqn:Hc; [done|]. by apply lstrip_fix.
Qed.

Lemma rstrip_rstrip (s : string) : rstrip (rstrip s) = rstrip s.
Proof.
  induction s as [|c s IH]; [done|]. simpl.
  destruct (rstrip s) as [|x r] eqn:Hr.
  - destruct (isspace c) eqn:Hc; [done|]. simpl. by rewrite Hc.
  - change (rstrip (String c (String x r))) with
      (match rstrip (String x r) with
       | "" => if isspace c then "" else String c ""
       | r' => String c r' end).
    by rewrite IH.
Qed.

Lemma lstrip_head (s : string) :
  lstrip s = "" ∨ ∃ c rest, lstrip s = String c rest ∧ isspace c = false.
Proof.
  induction s as [|c s IH]; [by left|]. simpl.
  destruct (isspace c) eqn:Hc; [done|]. right. eauto.
Qed.

Lemma lstrip_rstrip (c : ascii) (s : string) :
  isspace c = false → lstrip (rstrip (String c s)) = rstrip (String c s).
Proof.
  intros Hc. simpl. destruct (rstrip s); [rewrite Hc|]; by apply lstrip_fix.
Qed.

Lemma strip_both (s : string) :
  lstrip (strip s) = strip s ∧ rstrip (strip s) = strip s.
Proof.
  unfold strip. split; [|apply rstrip_rstrip].
  destruct (lstrip_head s) as [->|(c & rest & -> & Hc)]; [done|].
  by apply lstrip_rstrip.
Qed.

Lemma collapse_nonempty (c : ascii) (s : string) : collapse_ws (String c s) ≠ "".
Proof.
  revert c. induction s as [|c' s IH]; intros c.
  - simpl. by destruct (isspace c).
  - rewrite collapse_cons. destruct (isspace c); [destruct (isspace c')|]; [apply IH|done..].
Qed.

Lemma rstrip_cons_fix (c : ascii) (s : string) :
  s ≠ "" → rstrip s = s → rstrip (String c s) = String c s.
Proof. intros Hne Hfix. simpl. rewrite Hfix. by destruct s. Qed.

Lemma rstrip_fix_inv (c c' : ascii) (s : string) :
  rstrip (String c (String c' s)) = String c (String c' s) →
  rstrip (String c' s) = String c' s.
Proof.
  change (rstrip (String c (String c' s))) with
    (match rstrip (String c' s) with
     | "" => if isspace c then "" else String c ""
     | r => String c r end).
  destruct (rstrip (String c' s)); [by destruct (isspace c)|]. by intros [= -> ->].
Qed.

Lemma rstrip_collapse (s : string) :
  rstrip s = s → rstrip (collapse_ws s) = collapse_ws s.
Proof.
  induction s as [|c s IH]; [done|].
  destruct s as [|c' s'].
  - simpl. destruct (isspace c) eqn:Hc; [done|]. intros _. simpl. by rewrite Hc.
  - intros Hfix. apply rstrip_fix_inv in Hfix as Hfix'. specialize (IH Hfix').
    rewrite collapse_cons.
    destruct (isspace c); [destruct (isspace c')|]; [done|..];
      by apply rstrip_cons_fix; [apply collapse_nonempty|].
Qed.

Lemma lstrip_collapse (s : string) :
  lstrip s = s → lstrip (collapse_ws s) = collapse_ws s.
Proof.
  destruct s as [|c s]; [done|].
  destruct (isspace c) eqn:Hc.
  - simpl. rewrite Hc. intros Heq. apply (f_equal String.length) in Heq.
    pose proof (lstrip_length s). simpl in Heq. lia.
  - intros _. rewrite collapse_head by done. by apply lstrip_fix.
Qed.

(** After the collapse every white-space character is a blank. *)
Lemma collapse_blank (s : string) (i : nat) (c : ascii) :
  String.get i (collapse_ws s) = Some c → isspace c = true → c = " "%char.
Proof.
  revert i. induction s as [|x s IH]; intros i; [done|].
  assert (∀ y, (isspace y = false ∨ y = " "%char) →
            String.get i (String y (collapse_ws s)) = Some c →
            isspace c = true → c = " "%char) as Hcons.
  { intros y Hy. destruct i as [|i]; simpl; [|by apply IH].
    intros [= ->]. destruct Hy as [Hy| ->]; [congruence|done]. }
  destruct s as [|x' s'].
  - simpl. destruct (isspace x) eqn:Hx; destruct i; simpl; try done.
    + by intros [= <-].
    + intros [= <-]. congruence.
  - rewrite collapse_cons. destruct (isspace x) eqn:Hx.
    + destruct (isspace x'); [apply IH|]. apply Hcons. by right.
    + apply Hcons. by left.
Qed.

Lemma escape_blank (s : string) (i : nat) (c : ascii) :
  (∀ j d, String.get j s = Some d → isspace d = true → d = " "%char) →
  String.get i (escape_markdown s) = Some c → isspace c = true → c = " "%char.
Proof.
  revert i. induction s as [|x s IH]; intros i Hall; [done|].
  assert (∀ k, String.get k (escape_markdown s) = Some c →
               isspace c = true → c = " "%char) as Htail.
  { intros k. apply IH. intros j d. apply (Hall (S j)). }
  simpl. destruct (is_markdown_control x) eqn:Hm.
  - destruct i as [|[|i]]; simpl; [by intros [= <-]| |apply Htail].
    intros [= <-] Hc. apply control_not_space in Hm. congruence.
  - destruct i as [|i]; simpl; [|apply Htail].
    intros [= <-]. by apply (Hall 0).
Qed.

(** The output of [_clean_text] has no white space at either end, its
    white space is single blanks, and each of its markdown control
    characters follows a backslash. *)
Theorem clean_text_normal_form (text : string) :
  strip (_clean_text text) = _clean_text text
  ∧ collapse_ws (_clean_text text) = _clean_text text
  ∧ (∀ i c, String.get i (_clean_text text) = Some c →
            isspace c = true → c = " "%char)
  ∧ (∀ i c, String.get i (_clean_text text) = Some c →
            is_markdown_control c = true →
            ∃ j, i = S j ∧ String.get j (_clean_text text) = Some "\"%char).
Proof.
  unfold _clean_text. destruct (truthy text); cbn [negb]; [|done].
  destruct (strip_both text) as [Hl Hr].
  split_and!.
  - unfold strip at 1. rewrite lstrip_escape, rstrip_escape. f_equal.
    rewrite (lstrip_collapse _ Hl). by apply rstrip_collapse.
  - by rewrite collapse_escape, collapse_idemp.
  - intros i c. apply escape_blank. intros j d. apply collapse_blank.
  - generalize (collapse_ws (strip text)). intros s.
    induction s as [|x s IH]; intros i c; [done|]. simpl.
    destruct (is_markdown_control x) eqn:Hm.
    + destruct i as [|[|i]]; simpl.
      * by intros [= <-].
      * intros _ _. by exists 0.
      * intros Hget Hc. destruct (IH i c Hget Hc) as (j & -> & Hj).
        by exists (S (S j)).
    + destruct i as [|i]; simpl; [intros [= <-]; congruence|].
      intros Hget Hc. destruct (IH i c Hget Hc) as (j & -> & Hj).
      by exists (S j).
Qed.

End CleanText.

(** ** The gate and the line that carries the URL *)

Section GateFacts.

Lemma rstrip_app_nonspace (a : string) (c : ascii) (t : string) :
  isspace c = false → rstrip (a +:+ String c t) = a +:+ String c (rstrip t).
Proof.
  intros Hc. induction a as [|x a IH].
  - change ("" +:+ String c t) with (String c t). simpl.
    destruct (rstrip t); [by rewrite Hc|done].
  - rewrite !app_String. simpl. rewrite IH.
    destruct a; by rewrite ?app_String.
Qed.

Lemma contains_char_false (s : string) (c : ascii) :
  (∀ i, String.get i s ≠ Some c) → contains s (String c "") = false.
Proof.
  induction s as [|x s IH]; intros Hall; [done|]. simpl.
  rewrite IH by (intros i; apply (Hall (S i))).
  rewrite bool_decide_eq_false_2; [done|].
  intros ->. by apply (Hall 0).
Qed.

Lemma contains_app_char (a s : string) (c : ascii) :
  contains a (String c "") = false →
  contains s (String c "") = false →
  contains (a +:+ s) (String c "") = false.
Proof.
  intros Ha Hs. induction a as [|x a IH]; [done|].
  rewrite app_String. simpl in *.
  apply orb_false_elim in Ha as [Hx Ha]. rewrite (IH Ha).
  assert (∀ t, startswith t "" = true) as Hempty by (by intros []).
  rewrite Hempty in *. by rewrite Hx.
Qed.

Lemma clean_text_one_line (text : string) :
  contains (_clean_text text) nl = false.
Proof.
  apply contains_char_false. intros i Hget.
  assert (LF = " "%char) as Habs; [|done].
  unfold _clean_text in Hget. destruct (truthy text); cbn [negb] in Hget; [|by destruct i].
  eapply escape_blank; [|exact Hget|done].
  intros j d. apply collapse_blank.
Qed.

Lemma split_length (sep : ascii) (s : string) : 0 < length (split sep s).
Proof. unfold split. destruct (split_go sep s). simpl. lia. Qed.

Lemma markdown_lines_preamble (page : Page) (url page_title : string) :
  title page = Returns page_title →
  (markdown_lines page url).1 = preamble page_title url ++ blocks page url.
Proof.
  intros Htitle. unfold blocks, markdown_lines. rewrite Htitle.
  match goal with |- context [match ?m with [] => _ | _ :: _ => _ end] =>
    destruct m end.
  - destruct (find_body page); run_outcome; cbn [fst].
    + by rewrite drop_app_length.
    + by rewrite drop_all, app_nil_r.
  - run_outcome. cbn [fst]. by rewrite drop_app_length.
Qed.

Lemma create_markdown_content_join (page : Page) (url : string) :
  _create_markdown_content page url = Returns (join nl (markdown_lines page url).1).
Proof.
  unfold _create_markdown_content. by destruct (markdown_lines page url) as [? [[]|]].
Qed.

(** The text of a page with a title: the title line, an empty line, the
    URL line and what follows. *)
Lemma titled_document (page_title url : string) (more : list string) :
  truthy page_title = true →
  ∃ tail,
    join nl (preamble page_title url ++ more)
    = ("# " +:+ _clean_text page_title) +:+ String LF ("" +:+ String LF
        (("*Original URL: " +:+ url) +:+ String "*" tail))
    ∧ (more = [] → tail = nl).
Proof.
  intros Htitle. unfold preamble. rewrite Htitle. cbn [app].
  destruct more as [|block more].
  - exists nl. split; [|done]. cbn [join]. unfold nl.
    by rewrite !app_assoc_str.
  - exists (nl +:+ nl +:+ join nl (block :: more)). split; [|done].
    rewrite join_cons by done. rewrite (join_cons _ _ (block :: more)) by done.
    unfold nl. by rewrite !app_assoc_str.
Qed.

Lemma titled_actual_content (page_title url tail : string) :
  actual_content
    (("# " +:+ _clean_text page_title) +:+ String LF ("" +:+ String LF
       (("*Original URL: " +:+ url) +:+ String "*" tail)))
  = ("*Original URL: " +:+ url) +:+ String "*" (rstrip tail)
  ∧ 2 < length (content_lines
    (("# " +:+ _clean_text page_title) +:+ String LF ("" +:+ String LF
       (("*Original URL: " +:+ url) +:+ String "*" tail)))).
Proof.
  unfold actual_content, content_lines.
  set (first_line := "# " +:+ _clean_text page_title).
  set (url_line := "*Original URL: " +:+ url).
  assert (strip (first_line +:+ String LF ("" +:+ String LF (url_line +:+ String "*" tail)))
          = first_line +:+ String LF ("" +:+ String LF (url_line +:+ String "*" (rstrip tail))))
    as ->.
  { unfold strip.
    change (lstrip (first_line +:+ ?s)) with (first_line +:+ s).
    change (first_line +:+ String LF ("" +:+ String LF (url_line +:+ String "*" tail)))
      with (first_line +:+ (nl +:+ nl +:+ url_line +:+ String "*" tail)).
    rewrite <- !app_assoc_str, rstrip_app_nonspace by done.
    by rewrite !app_assoc_str. }
  rewrite !split_app.
  rewrite (split_no_sep LF first_line).
  2:{ apply (contains_app_char "# "); [done|apply clean_text_one_line]. }
  change (split LF "") with [""]. cbn [app drop length].
  split; [apply (join_split LF)|].
  pose proof (split_length LF (url_line +:+ String "*" (rstrip tail))). lia.
Qed.

(** For a page with a title the URL line is part of what the gate
    counts: the text from the third line on begins with it.  Hence a
    URL of 84 characters or more is enough to pass the gate, and a page
    without any block passes it exactly when its URL is that long. *)
Theorem titled_page_gate (page : Page) (url page_title : string) :
  title page = Returns page_title →
  truthy page_title = true →
  ∃ document,
    _create_markdown_content page url = Returns document
    ∧ (∃ rest, actual_content document = "*Original URL: " +:+ url +:+ "*" +:+ rest)
    ∧ (84 ≤ String.length url → has_meaningful_content document = true)
    ∧ (blocks page url = [] →
       has_meaningful_content document = bool_decide (84 ≤ String.length url)).
Proof.
  intros Htitle Htruthy. eexists. split; [apply create_markdown_content_join|].
  rewrite (markdown_lines_preamble _ _ _ Htitle).
  destruct (titled_document page_title url (blocks page url) Htruthy)
    as (tail & -> & Htail).
  destruct (titled_actual_content page_title url tail) as [Hactual Hlines].
  assert (strip (("*Original URL: " +:+ url) +:+ String "*" (rstrip tail))
          = ("*Original URL: " +:+ url) +:+ String "*" (rstrip tail)) as Hstrip.
  { unfold strip. rewrite app_assoc_str.
    change (lstrip ("*Original URL: " +:+ ?s)) with ("*Original URL: " +:+ s).
    rewrite <- app_assoc_str.
    by rewrite rstrip_app_nonspace, rstrip_rstrip. }
  unfold has_meaningful_content. rewrite Hactual, Hstrip.
  rewrite (proj2 (Nat.leb_gt _ _) Hlines). cbn [negb andb].
  rewrite !length_app_str. cbn [String.length].
  split_and!.
  - exists (rstrip tail). by rewrite !app_assoc_str.
  - intros Hlong. apply negb_true_iff, Nat.ltb_ge. lia.
  - intros Hnone. rewrite (Htail Hnone). change (rstrip nl) with "".
    cbn [String.length]. destruct (bool_decide_reflect (84 ≤ String.length url)).
    + apply negb_true_iff, Nat.ltb_ge. lia.
    + apply negb_false_iff, Nat.ltb_lt. lia.
Qed.

End GateFacts.

(** ** Slot names and paths *)

Section NameFacts.

Lemma replace_char_gone (a b : ascii) (s : string) :
  a ≠ b → contains (replace_char a b s) (String a "") = false.
Proof.
  intros Hab. induction s as [|c s IH]; [done|]. simpl. rewrite IH.
  rewrite bool_decide_eq_false_2; [done|]. by destruct (decide (c = a)).
Qed.

Lemma contains_char_cons (c a : ascii) (s : string) :
  contains (String c s) (String a "") = false →
  c ≠ a ∧ contains s (String a "") = false.
Proof.
  simpl. intros [Hc Hs]%orb_false_elim. split; [|done].
  intros ->. rewrite bool_decide_eq_true_2 in Hc by done. by destruct s.
Qed.

Lemma replace_char_absent (a b : ascii) (s : string) :
  contains s (String a "") = false → replace_char a b s = s.
Proof.
  induction s as [|c s IH]; [done|]. intros [Hc Hs]%contains_char_cons.
  simpl. by rewrite decide_False, IH.
Qed.

Lemma lstrip_char_absent (ch : ascii) (s : string) :
  contains s (String ch "") = false → lstrip_char ch s = s.
Proof.
  destruct s as [|c s]; [done|]. intros [Hc Hs]%contains_char_cons.
  simpl. by rewrite decide_False.
Qed.

Lemma rstrip_char_absent (ch : ascii) (s : string) :
  contains s (String ch "") = false → rstrip_char ch s = s.
Proof.
  induction s as [|c s IH]; [done|]. intros [Hc Hs]%contains_char_cons.
  simpl. rewrite IH by done. destruct s; [by rewrite decide_False|done].
Qed.

Lemma slot_name_slash (url_path : string) :
  slot_name ("/" +:+ url_path) = slot_name url_path.
Proof. reflexivity. Qed.

(** A slot name is never empty and never holds a slash, so the file of a
    page lies directly in the output directory.  The slot name of a slot
    name is the slot name itself: the path [/] followed by the slot name
    of a path shares the file of that path. *)
Theorem slot_name_safe (url_path : string) :
  slot_name url_path ≠ ""
  ∧ contains (slot_name url_path) "/" = false
  ∧ slot_name (slot_name url_path) = slot_name url_path
  ∧ slot_name ("/" +:+ slot_name url_path) = slot_name url_path.
Proof.
  assert (slot_name url_path ≠ ""
          ∧ contains (slot_name url_path) "/" = false) as [Hne Hslash].
  { unfold slot_name.
    destruct (truthy _) eqn:Htruthy; [|done].
    split; [|by apply replace_char_gone].
    intros Hempty. by rewrite Hempty in Htruthy. }
  assert (slot_name (slot_name url_path) = slot_name url_path) as Hidem.
  { unfold slot_name at 1. unfold strip_char.
    rewrite lstrip_char_absent, rstrip_char_absent, replace_char_absent by done.
    unfold truthy. by rewrite bool_decide_eq_false_2. }
  split_and!; [done..|]. by rewrite slot_name_slash.
Qed.




End NameFacts.

(** ** Links *)

Section LinkFacts.

Variable urlparse : string → outcome ParseResult.

Lemma link_of_spec (self : SiteScraper) (element : outcome (option string))
    (h : string) :
  recover (link_of urlparse self element) None = Some h
  ↔ element = Returns (Some h) ∧ h ≠ ""
    ∧ _is_valid_url urlparse self h = Returns true.
Proof.
  unfold link_of. destruct element as [[href|]|]; run_outcome;
    [|split; [done|by intros [? _]]..].
  unfold truthy. destruct (bool_decide_reflect (href = "")) as [->|Hne]; cbn [negb].
  { run_outcome. split; [done|]. by intros ([= <-] & ? & _). }
  destruct (_is_valid_url urlparse self href) as [[]|] eqn:Hvalid; run_outcome.
  - split; [by intros [= <-]|by intros ([= <-] & _)].
  - split; [done|]. intros ([= <-] & _ & ?). congruence.
  - split; [done|]. intros ([= <-] & _ & ?). congruence.
Qed.

Lemma fold_links (self : SiteScraper) (anchors : list (outcome (option string)))
    (acc : gset string) (h : string) :
  h ∈ foldl (λ links element,
               match recover (link_of urlparse self element) None with
               | Some h' => links ∪ {[h']}
               | None => links
               end) acc anchors
  ↔ h ∈ acc ∨ (Returns (Some h) ∈ anchors ∧ h ≠ ""
               ∧ _is_valid_url urlparse self h = Returns true).
Proof.
  revert acc. induction anchors as [|element anchors IH]; intros acc; simpl.
  - split; [by left|]. intros [?|[Hin _]]; [done|]. by apply elem_of_nil in Hin.
  - rewrite IH. clear IH.
    pose proof (link_of_spec self element h) as Hlink.
    destruct (recover (link_of urlparse self element) None) as [h'|] eqn:Hrec.
    + rewrite elem_of_union, elem_of_singleton, elem_of_cons. split.
      * intros [[?| ->]|(? & ? & ?)]; [by left| |by right; eauto].
        right. destruct Hlink as [(-> & ? & ?) _]; [done|]. split_and!; [by left|done..].
      * intros [?|([Heq|?] & ? & ?)]; [by left; left| |by right].
        left. right. destruct Hlink as [_ Hlink].
        assert (Some h' = Some h) as [= ->]; [|done]. by apply Hlink.
    + rewrite elem_of_cons. split.
      * intros [?|(? & ? & ?)]; [by left|by right; eauto].
      * intros [?|([Heq|?] & ? & ?)]; [by left| |by right].
        destruct Hlink as [_ Hlink]. by discriminate Hlink.
Qed.

Lemma extract_links_valid (self other : SiteScraper) (page : Page)
    (anchors : list (outcome (option string))) (h : string) :
  find_anchors page = Returns anchors →
  h ∈ _extract_links urlparse self page →
  domain self = domain other ∧ language self = language other →
  _is_valid_url urlparse other h = Returns true.
Proof.
  intros Hanchors Hin [Hd Hl]. unfold _extract_links in Hin.
  rewrite Hanchors in Hin. apply fold_links in Hin as [Hin|(_ & _ & Hvalid)].
  - by apply not_elem_of_empty in Hin.
  - unfold _is_valid_url in *. by rewrite <- Hd, <- Hl.
Qed.

(** The links taken from a page are exactly the non-empty addresses of
    its anchors that the filter accepts; an anchor whose attribute
    cannot be read, or on which the filter raises, is passed over, and a
    page whose anchors cannot be listed gives no link. *)
Theorem extract_links_spec (self : SiteScraper) (page : Page) :
  (find_anchors page = Raises → _extract_links urlparse self page = ∅)
  ∧ (∀ anchors h,
       find_anchors page = Returns anchors →
       h ∈ _extract_links urlparse self page
       ↔ Returns (Some h) ∈ anchors ∧ h ≠ ""
         ∧ _is_valid_url urlparse self h = Returns true).
Proof.
  unfold _extract_links. split; [by intros ->|].
  intros anchors h ->. rewrite fold_links. split; [|by right].
  intros [Hin|?]; [|done]. by apply not_elem_of_empty in Hin.
Qed.

End LinkFacts.

(** ** What the crawl keeps *)

Section CrawlInvariants.

Variable urlparse : string → outcome ParseResult.
Variable driver_get : nat → string → outcome Page.
Variable can_mkdir : string → bool.
Variable can_write : string → bool.

Local Abbreviation pass := (visit urlparse driver_get can_mkdir can_write).
Local Abbreviation loop := (scrape_loop urlparse driver_get can_mkdir can_write).
Local Abbreviation save := (_save_markdown can_mkdir can_write).

(** The three ways a pass can go: the URL was visited already, a fault
    was caught, or the page was processed. *)
Lemma visit_cases (st : Crawl) (u : string) :
  pass st u = st
  ∨ pass st u = {| self := self st; page_count := page_count st;
                   disk := disk st; clock := S (clock st) |}
  ∨ (∃ page content parsed saved,
      (u ∉ visited_urls (self st))
      ∧ driver_get (clock st) u = Returns page
      ∧ _create_markdown_content page u = Returns content
      ∧ urlparse u = Returns parsed
      ∧ save (self st) (disk st) content (slot_name (path parsed)) = Returns saved
      ∧ pass st u
        = {| self := foldl enqueue
                       (set_visited_urls (visited_urls (self st) ∪ {[u]}) (self st))
                       (elements (_extract_links urlparse
                          (set_visited_urls (visited_urls (self st) ∪ {[u]}) (self st))
                          page));
             page_count := S (page_count st);
             disk := saved.2;
             clock := S (clock st) |}).
Proof.
  unfold visit.
  destruct (bool_decide_reflect (u ∈ visited_urls (self st))) as [|Hnew]; [by left|].
  right.
  destruct (driver_get _ _) as [page|] eqn:Hpage; run_outcome; [|by left].
  destruct (_create_markdown_content _ _) as [content|] eqn:Hcontent;
    run_outcome; [|by left].
  destruct (urlparse u) as [parsed|] eqn:Hparse; run_outcome; [|by left].
  destruct (_save_markdown _ _ _ _ _ _) as [saved|] eqn:Hsave; run_outcome; [|by left].
  right. by exists page, content, parsed, saved.
Qed.

(** Induction over the passes of the loop. *)
Lemma loop_invariant (P : Crawl → Prop) (max_pages : option nat) :
  (∀ st u rest,
     urls_to_visit (self st) = u :: rest →
     within_budget max_pages (page_count st) = true →
     P st → P (pass (pop st rest) u)) →
  ∀ fuel st st', loop fuel max_pages st = Some st' → P st → P st'.
Proof.
  intros Hstep fuel. induction fuel as [|fuel IH]; intros st st'; simpl.
  - destruct (urls_to_visit (self st)); [by intros [= ->]|].
    destruct (within_budget _ _); [done|by intros [= ->]].
  - destruct (urls_to_visit (self st)) as [|u rest] eqn:Hqueue; [by intros [= ->]|].
    destruct (within_budget _ _) eqn:Hbudget; [|by intros [= ->]].
    intros Hloop HP. apply (IH _ _ Hloop). by apply Hstep.
Qed.

(** The loop stops only on an empty queue or a spent budget. *)
Lemma loop_exit (fuel : nat) (max_pages : option nat) (st st' : Crawl) :
  loop fuel max_pages st = Some st' →
  urls_to_visit (self st') = []
  ∨ within_budget max_pages (page_count st') = false.
Proof.
  revert st. induction fuel as [|fuel IH]; intros st; simpl.
  - destruct (urls_to_visit (self st)) eqn:Hq; [intros [= <-]; by left|].
    destruct (within_budget max_pages (page_count st)) eqn:Hb;
      [done|intros [= <-]; by right].
  - destruct (urls_to_visit (self st)) eqn:Hq; [intros [= <-]; by left|].
    destruct (within_budget max_pages (page_count st)) eqn:Hb;
      [apply IH|intros [= <-]; by right].
Qed.

(** More passes than needed change nothing. *)
Lemma loop_more_fuel (fuel extra : nat) (max_pages : option nat) (st st' : Crawl) :
  loop fuel max_pages st = Some st' → loop (fuel + extra) max_pages st = Some st'.
Proof.
  revert st. induction fuel as [|fuel IH]; intros st; simpl.
  - destruct extra; simpl; [done|].
    destruct (urls_to_visit (self st)); [done|].
    by destruct (within_budget _ _).
  - destruct (urls_to_visit (self st)); [done|].
    destruct (within_budget _ _); [apply IH|done].
Qed.

(** *** The queue *)

Lemma enqueue_domain (self : SiteScraper) (link : string) :
  domain (enqueue self link) = domain self.
Proof. unfold enqueue. by destruct (bool_decide _). Qed.

Lemma enqueue_all_domain (self : SiteScraper) (links : list string) :
  domain (foldl enqueue self links) = domain self.
Proof.
  revert self. induction links as [|link links IH]; intros self; [done|].
  simpl. by rewrite IH, enqueue_domain.
Qed.

Lemma enqueue_all_queue (self : SiteScraper) (links : list string) :
  urls_to_visit (foldl enqueue self links)
  = urls_to_visit self ++ filter (λ link, link ∉ visited_urls self) links.
Proof.
  revert self. induction links as [|link links IH]; intros self; simpl.
  - by rewrite app_nil_r.
  - rewrite IH, enqueue_visited_urls. unfold enqueue at 1.
    rewrite filter_cons.
    destruct (bool_decide_reflect (link ∈ visited_urls self)) as [Hin|Hout].
    + by rewrite decide_False by (by intros ?).
    + rewrite decide_True by done. cbn [set_urls_to_visit urls_to_visit].
      by rewrite <- app_assoc.
Qed.

Lemma is_valid_url_ext (self other : SiteScraper) (url : string) :
  domain self = domain other →
  language self = language other →
  _is_valid_url urlparse self url = _is_valid_url urlparse other url.
Proof. intros Hd Hl. unfold _is_valid_url. by rewrite Hd, Hl. Qed.

Lemma valid_url_facts (self : SiteScraper) (url : string) :
  _is_valid_url urlparse self url = Returns true →
  ∃ parsed, urlparse url = Returns parsed
    ∧ netloc parsed = domain self
    ∧ contains url "#" = false.
Proof.
  unfold _is_valid_url. destruct (truthy url); cbn [negb]; [|done].
  destruct (urlparse url) as [parsed|]; run_outcome; [|done].
  destruct (bool_decide_reflect (netloc parsed = domain self)); cbn [negb]; [|done].
  destruct (contains url "#"); [done|]. intros _. by exists parsed.
Qed.


(** *** URLs *)

(** Every URL that the loop leaves pending or visited was pending or
    visited at the start, or was accepted by the filter: it parses, its
    network location is the domain and it has no fragment mark.  The
    domain and the language never change. *)
Theorem crawl_stays_admissible (fuel : nat) (max_pages : option nat)
    (st st' : Crawl) :
  loop fuel max_pages st = Some st' →
  domain (self st') = domain (self st)
  ∧ language (self st') = language (self st)
  ∧ ∀ u, u ∈ urls_to_visit (self st') ∨ u ∈ visited_urls (self st') →
      u ∈ urls_to_visit (self st) ∨ u ∈ visited_urls (self st)
      ∨ (_is_valid_url urlparse (self st) u = Returns true
         ∧ ∃ parsed, urlparse u = Returns parsed
             ∧ netloc parsed = domain (self st)
             ∧ contains u "#" = false).
Proof.
  intros Hloop.
  pose (P := λ st1 : Crawl,
    domain (self st1) = domain (self st)
    ∧ language (self st1) = language (self st)
    ∧ ∀ u, u ∈ urls_to_visit (self st1) ∨ u ∈ visited_urls (self st1) →
        u ∈ urls_to_visit (self st) ∨ u ∈ visited_urls (self st)
        ∨ _is_valid_url urlparse (self st) u = Returns true).
  assert (P st') as (Hd & Hl & Hall).
  { apply (loop_invariant P max_pages) with (fuel := fuel) (st := st);
      [|exact Hloop|by unfold P; split_and!; [..|intros u [?|?]; eauto]].
    subst P. cbv beta. clear. intros st1 u rest Hqueue _ (Hd & Hl & Hall).
    assert (∀ x, x ∈ rest ∨ x ∈ visited_urls (self st1) →
              x ∈ urls_to_visit (self st) ∨ x ∈ visited_urls (self st)
              ∨ _is_valid_url urlparse (self st) x = Returns true) as Hrest.
    { intros x [Hx|Hx]; apply Hall; [left|by right].
      rewrite Hqueue. by right. }
    destruct (visit_cases (pop st1 rest) u)
      as [->|[->|(page & content & parsed & saved & Hnew & Hpage & _ & _ & _ & ->)]];
      [by split_and!..|].
    cbn [self].
    rewrite enqueue_all_domain, enqueue_all_language, enqueue_all_queue,
      enqueue_all_visited_urls.
    split_and!; [done..|].
    cbn [pop self set_visited_urls set_urls_to_visit visited_urls urls_to_visit].
    intros x [[Hx|Hx]%elem_of_app|[Hx|Hx]%elem_of_union].
    - apply Hrest. by left.
    - apply list_elem_of_filter in Hx as [_ Hx]. apply elem_of_elements in Hx.
      right. right.
      destruct (find_anchors page) as [anchors|] eqn:Hanchors.
      + by eapply (extract_links_valid urlparse _ (self st)) in Hx.
      + unfold _extract_links in Hx. rewrite Hanchors in Hx.
        by apply not_elem_of_empty in Hx.
    - apply Hrest. by right.
    - apply elem_of_singleton in Hx as ->. apply Hall. left. rewrite Hqueue. by left. }
  split_and!; [done..|].
  intros u Hu. destruct (Hall u Hu) as [?|[?|Hvalid]]; [by left|by right; left|].
  right. right. split; [done|]. by apply valid_url_facts.
Qed.

(** *** Counting *)

Lemma loop_count (fuel : nat) (max_pages : option nat) (st st' : Crawl) :
  loop fuel max_pages st = Some st' →
  page_count st' + size (visited_urls (self st))
  = page_count st + size (visited_urls (self st'))
  ∧ ∀ m, max_pages = Some m → page_count st ≤ m → page_count st' ≤ m.
Proof.
  intros Hloop.
  refine (loop_invariant
    (λ st1, page_count st1 + size (visited_urls (self st))
            = page_count st + size (visited_urls (self st1))
            ∧ ∀ m, max_pages = Some m → page_count st ≤ m → page_count st1 ≤ m)
    max_pages _ fuel st st' Hloop _);
    [|split; [lia|done]].
  clear. intros st1 u rest Hqueue Hbudget [Hcount Hmax].
  destruct (visit_cases (pop st1 rest) u)
    as [->|[->|(page & content & parsed & saved & Hnew & _ & _ & _ & _ & ->)]];
    [done..|].
  cbn [self page_count]. rewrite enqueue_all_visited_urls.
  cbn [pop self set_visited_urls set_urls_to_visit visited_urls page_count] in *.
  rewrite size_union by set_solver. rewrite size_singleton. split; [lia|].
  intros m -> Hle. simpl in Hbudget. apply Nat.ltb_lt in Hbudget. lia.
Qed.

(** The page count grows by one for each URL that joins the visited
    set, and with a budget of [m] pages it never passes [m]. *)
Theorem page_count_counts_visited (fuel : nat) (max_pages : option nat)
    (st st' : Crawl) :
  loop fuel max_pages st = Some st' →
  page_count st' + size (visited_urls (self st))
  = page_count st + size (visited_urls (self st'))
  ∧ (∀ m, max_pages = Some m → page_count st ≤ m → page_count st' ≤ m)
  ∧ (urls_to_visit (self st') = []
     ∨ within_budget max_pages (page_count st') = false).
Proof.
  intros Hloop. destruct (loop_count _ _ _ _ Hloop) as [Hcount Hmax].
  split_and!; [done..|]. by eapply loop_exit.
Qed.

(** With a budget of [m] pages the loop ends, whatever the site: some
    number of passes suffices, any larger number gives the same result,
    and at the end the queue is empty or [m] pages were counted. *)
Theorem crawl_with_budget_ends (m : nat) (st : Crawl) :
  ∃ fuel st',
    (∀ extra, loop (fuel + extra) (Some m) st = Some st')
    ∧ (urls_to_visit (self st') = [] ∨ m ≤ page_count st').
Proof.
  destruct (scrape_loop_terminates urlparse driver_get can_mkdir can_write m st)
    as (fuel & st' & Hloop).
  exists fuel, st'. split; [intros extra; by apply loop_more_fuel|].
  destruct (loop_exit _ _ _ _ Hloop) as [?|Hspent]; [by left|right].
  simpl in Hspent. by apply Nat.ltb_ge in Hspent.
Qed.

(** After a crawl that starts with nothing visited and nothing
    counted, the index can be built and has one bullet for each page
    counted. *)
Theorem index_size_is_page_count (fuel : nat) (max_pages : option nat)
    (scraper : SiteScraper) (fs : FileSystem) (st : Crawl) :
  visited_urls scraper = ∅ →
  loop fuel max_pages
    {| self := scraper; page_count := 0; disk := fs; clock := 0 |} = Some st →
  ∃ entries,
    index_content urlparse (self st)
    = Returns (heading :: (index_bullet (self st) <$> entries))
    ∧ length entries = page_count st.
Proof.
  intros Hfresh Hloop.
  assert (all_parse urlparse (visited_urls (self st))) as Hparse.
  { apply (scrape_loop_all_parse _ _ _ _ _ _ _ _ Hloop). cbn [self].
    rewrite Hfresh. intros u Hu. by apply not_elem_of_empty in Hu. }
  destruct (loop_count _ _ _ _ Hloop) as [Hcount _].
  cbn [self page_count] in Hcount. rewrite Hfresh, size_empty in Hcount.
  unfold index_content.
  destruct (index_entries_total urlparse (sorted (visited_urls (self st))))
    as [entries Hentries].
  { intros u Hu. apply Hparse. unfold sorted in Hu.
    rewrite merge_sort_Permutation in Hu. by apply elem_of_elements. }
  exists entries. rewrite Hentries. run_outcome. split; [done|].
  apply index_entries_urls in Hentries.
  rewrite <- (length_fmap fst), Hentries. unfold sorted.
  rewrite merge_sort_Permutation.
  change (length (elements (visited_urls (self st))))
    with (size (visited_urls (self st))). lia.
Qed.

(** *** Files *)






(** *** Faults *)

(** When the browser loads no page, the loop empties the queue in one
    pass per pending URL: nothing is visited, counted or written. *)
Theorem offline_crawl (max_pages : option nat) (st : Crawl) :
  (∀ n u, driver_get n u = Raises) →
  ∃ st', loop (length (urls_to_visit (self st))) max_pages st = Some st'
    ∧ visited_urls (self st') = visited_urls (self st)
    ∧ disk st' = disk st
    ∧ page_count st' = page_count st
    ∧ (within_budget max_pages (page_count st) = true →
       urls_to_visit (self st') = []).
Proof.
  intros Hoff.
  remember (length (urls_to_visit (self st))) as n eqn:Hn.
  revert st Hn. induction n as [|n IH]; intros st Hn.
  - destruct (urls_to_visit (self st)) eqn:Hq; [|done].
    exists st. simpl. by rewrite Hq.
  - destruct (urls_to_visit (self st)) as [|u rest] eqn:Hq; [done|].
    simpl. rewrite Hq.
    destruct (within_budget max_pages (page_count st)) eqn:Hb; [|by exists st].
    assert (pass (pop st rest) u = pop st rest
            ∨ pass (pop st rest) u = abandoned (pop st rest)) as Hpass.
    { unfold visit. destruct (bool_decide _); [by left|right].
      rewrite Hoff. by run_outcome. }
    destruct (IH (pass (pop st rest) u)) as (st' & Hloop & Hv & Hd & Hc & Hq').
    { destruct Hpass as [-> | ->]; simpl in *; congruence. }
    exists st'. destruct Hpass as [Heq|Heq]; rewrite Heq in *; simpl in *;
      split_and!; try done; intros _; by apply Hq'.
Qed.


End CrawlInvariants.

(** ** Blocks *)

Section BlockFacts.

Lemma repeat_char_one_line (n : nat) : contains (repeat_char "#" n) nl = false.
Proof. induction n as [|n IH]; [done|]. simpl. by rewrite IH. Qed.

Lemma one_line_intro (body : string) :
  contains body nl = false → one_line (body +:+ nl).
Proof. intros Hbody. by exists body. Qed.

Lemma text_block_lines (elements : list Element) (element : Element)
    (lines : list string) (line : string) :
  text_block elements element = Returns lines → line ∈ lines → one_line line.
Proof.
  unfold text_block.
  destruct (el_is_displayed element) as [[]|]; run_outcome; cbn [negb];
    [|by intros [= <-] ?%elem_of_nil|done].
  destruct (el_parent element) as [parent|]; run_outcome; [|done].
  destruct (bool_decide _); [by intros [= <-] ?%elem_of_nil|].
  destruct (el_text element) as [raw|]; run_outcome; [|done].
  destruct (truthy (_clean_text raw)); cbn [negb]; [|by intros [= <-] ?%elem_of_nil].
  destruct (el_tag_name element) as [tag_name|]; run_outcome; [|done].
  pose proof (clean_text_one_line raw) as Htext.
  destruct (startswith tag_name "h" && (String.length tag_name =? 2)).
  - destruct (String.get 1 tag_name) as [d|]; run_outcome; [|done].
    destruct (int_of_char d) as [level|]; run_outcome; [|done].
    intros [= <-] ->%list_elem_of_singleton.
    rewrite <- !app_assoc_str. apply one_line_intro.
    rewrite app_assoc_str.
    apply contains_app_char; [apply repeat_char_one_line|].
    by apply (contains_app_char " ").
  - destruct (bool_decide (tag_name = "li")); intros [= <-] ->%list_elem_of_singleton.
    + rewrite <- app_assoc_str. apply one_line_intro.
      by apply (contains_app_char "- ").
    + by apply one_line_intro.
Qed.

Lemma interactive_block_lines (element : Element) (lines : list string)
    (line : string) :
  interactive_block element = Returns lines → line ∈ lines → one_line line.
Proof.
  unfold interactive_block.
  destruct (el_is_displayed element) as [[]|]; run_outcome;
    [|by intros [= <-] ?%elem_of_nil|done].
  destruct (el_text element) as [raw|]; run_outcome; [|done].
  pose proof (clean_text_one_line raw) as Htext.
  destruct (truthy (_clean_text raw) && (5 <? String.length (_clean_text raw)));
    [|by intros [= <-] ?%elem_of_nil].
  intros [= <-] ->%list_elem_of_singleton.
  rewrite <- !app_assoc_str. apply one_line_intro. rewrite app_assoc_str.
  apply (contains_app_char "_"); [done|].
  by apply contains_app_char.
Qed.

Lemma recover_lines {A} (f : A → outcome (list string)) (x : A) (line : string) :
  (∀ lines, f x = Returns lines → line ∈ lines → one_line line) →
  line ∈ recover (f x) [] → one_line line.
Proof.
  intros Hf. destruct (f x) as [lines|]; cbn [recover]; [by apply Hf|].
  by intros ?%elem_of_nil.
Qed.

Lemma container_blocks_lines (main_content : Container) (line : string) :
  line ∈ container_blocks main_content → one_line line.
Proof.
  unfold container_blocks.
  destruct (c_text_elements main_content) as [elements|]; [|by intros ?%elem_of_nil].
  assert (line ∈ (elements ≫= λ element, recover (text_block elements element) [])
          → one_line line) as Htext.
  { intros (element & Hline & _)%list_elem_of_bind.
    eapply (recover_lines (text_block elements)); [|exact Hline].
    intros lines. apply text_block_lines. }
  destruct (c_interactive main_content) as [buttons|]; [|done].
  intros [?|(element & Hline & _)%list_elem_of_bind]%elem_of_app; [by apply Htext|].
  eapply (recover_lines interactive_block); [|exact Hline].
  intros lines. apply interactive_block_lines.
Qed.

(** Every block of a document is one line of text closed by a line
    feed: the cleaned text of an element never holds a line feed, so in
    the joined document each block stands on its own line, followed by
    an empty line. *)
Theorem blocks_are_lines (page : Page) (url line : string) :
  line ∈ blocks page url → one_line line.
Proof.
  unfold blocks, markdown_lines.
  destruct (title page) as [page_title|]; [|by intros ?%elem_of_nil].
  match goal with |- context [match ?m with [] => _ | _ :: _ => _ end] =>
    destruct m as [|container containers] end.
  - destruct (find_body page) as [body|]; run_outcome; cbn [fst].
    + rewrite drop_app_length.
      intros (c & Hline & _)%list_elem_of_bind. by eapply container_blocks_lines.
    + rewrite drop_all. by intros ?%elem_of_nil.
  - run_outcome. cbn [fst]. rewrite drop_app_length.
    intros (c & Hline & _)%list_elem_of_bind. by eapply container_blocks_lines.
Qed.

End BlockFacts.

(** ** Writing *)

Section WriteFacts.

Variable urlparse : string → outcome ParseResult.
Variable can_mkdir : string → bool.
Variable can_write : string → bool.

Local Abbreviation save := (_save_markdown can_mkdir can_write).

Lemma save_markdown_writes (self : SiteScraper) (fs : FileSystem)
    (content filename : string) :
  has_meaningful_content content = true →
  can_mkdir (output_path self) = true →
  can_write (file_path self filename) = true →
  save self fs content filename
  = Returns (true, {| dirs := dirs fs ∪ {["output"; output_path self]};
                      files := <[file_path self filename := content]> (files fs) |}).
Proof.
  intros Hgate Hdir Hwrite. unfold _save_markdown, has_meaningful_content in *.
  apply andb_true_iff in Hgate as [H1 H2].
  apply negb_true_iff in H1, H2. by rewrite H1, H2, Hdir, Hwrite.
Qed.

(** Two texts saved under names that are cleaned to the same name share
    one file, and the second save leaves the file system as if the
    first had never happened. *)
Theorem save_overwrites (self : SiteScraper) (fs : FileSystem)
    (first second name1 name2 : string) :
  has_meaningful_content first = true →
  has_meaningful_content second = true →
  can_mkdir (output_path self) = true →
  can_write (file_path self name1) = true →
  clean_filename name1 = clean_filename name2 →
  ∃ fs1 fs2,
    save self fs first name1 = Returns (true, fs1)
    ∧ save self fs1 second name2 = Returns (true, fs2)
    ∧ save self fs second name2 = Returns (true, fs2)
    ∧ files fs2 !! file_path self name1 = Some second.
Proof.
  intros Hfirst Hsecond Hdir Hwrite Hsame.
  assert (file_path self name2 = file_path self name1) as Hpath.
  { unfold file_path. by rewrite Hsame. }
  eexists _, _. split_and!.
  - by apply save_markdown_writes.
  - apply save_markdown_writes; [done..|]. by rewrite Hpath.
  - rewrite save_markdown_writes; [|done..|by rewrite Hpath].
    cbn [dirs files]. rewrite Hpath, insert_insert_eq.
    by rewrite <- (assoc_L (∪)), (idemp_L (∪)).
  - cbn [files]. rewrite Hpath. apply lookup_insert_eq.
Qed.



End WriteFacts.

(** ** The further properties on the demonstration site *)

(** A page without blocks whose URL has 90 characters passes the gate. *)
Lemma titled_page_gate_witness :
  ∃ document,
    _create_markdown_content (broken_page "Moved") long_url = Returns document
    ∧ blocks (broken_page "Moved") long_url = []
    ∧ has_meaningful_content document = true.
Proof.
  destruct (titled_page_gate (broken_page "Moved") long_url "Moved")
    as (document & Hdoc & _ & Hlong & _); [done|done|].
  exists document. split; [exact Hdoc|]. split; [done|].
  apply Hlong. vm_compute. lia.
Defined.


Lemma demo_loop :
  scrape_loop urlparse_model site always always 3 (Some 100) start = Some finished.
Proof. by vm_compute. Qed.

(** The team page, found on the home page, is on the domain. *)
Lemma crawl_stays_admissible_witness :
  scrape_loop urlparse_model site always always 3 (Some 100) start = Some finished
  ∧ domain (self finished) = domain (self start)
  ∧ (team_url ∈ urls_to_visit (self start) ∨ team_url ∈ visited_urls (self start)
     ∨ (_is_valid_url urlparse_model (self start) team_url = Returns true
        ∧ ∃ parsed, urlparse_model team_url = Returns parsed
            ∧ netloc parsed = domain (self start)
            ∧ contains team_url "#" = false)).
Proof.
  split; [exact demo_loop|].
  destruct (crawl_stays_admissible urlparse_model site always always
              3 (Some 100) start finished demo_loop) as (Hd & _ & Hall).
  split; [exact Hd|]. apply Hall. right.
  apply (bool_decide_unpack _). by vm_compute.
Defined.

(** Two pages are counted and two URLs are visited. *)
Lemma page_count_counts_visited_witness :
  page_count finished + size (visited_urls (self start))
  = page_count start + size (visited_urls (self finished))
  ∧ page_count finished ≤ 100.
Proof.
  destruct (page_count_counts_visited urlparse_model site always always
              3 (Some 100) start finished demo_loop) as (Hcount & Hmax & _).
  split; [exact Hcount|]. apply (Hmax 100); [done|]. simpl. lia.
Defined.

(** The index of the two pages has two bullets. *)
Lemma index_size_is_page_count_witness :
  ∃ entries,
    index_content urlparse_model (self finished)
    = Returns (heading :: (index_bullet (self finished) <$> entries))
    ∧ length entries = 2.
Proof.
  apply (index_size_is_page_count urlparse_model site always always
           3 (Some 100) scraper empty_fs finished); [done|exact demo_loop].
Defined.


(** Without a browser the seed is taken off the queue and nothing else
    happens. *)
Lemma offline_crawl_witness :
  ∃ st', scrape_loop urlparse_model offline always always 1 None start = Some st'
    ∧ visited_urls (self st') = ∅
    ∧ disk st' = empty_fs
    ∧ page_count st' = 0
    ∧ urls_to_visit (self st') = [].
Proof.
  destruct (offline_crawl urlparse_model offline always always None start)
    as (st' & Hloop & Hv & Hd & Hc & Hq); [done|].
  exists st'. split_and!; [exact Hloop|exact Hv|exact Hd|exact Hc|by apply Hq].
Defined.


(** The crawl of the demonstration site reaches its end. *)
Lemma scrape_site_returns_witness :
  ∃ fuel st,
    scrape_site urlparse_model site always always fuel (Some 100) scraper empty_fs
    = Some (Returns st).
Proof.
  apply (scrape_site_returns urlparse_model site always always 100 scraper empty_fs);
    [|done].
  intros url Hurl. by apply not_elem_of_empty in Hurl.
Defined.

(** The paragraph of the home page is one line. *)
Lemma blocks_are_lines_witness :
  blocks home_page home_url = [long_text +:+ nl]
  ∧ one_line (long_text +:+ nl).
Proof.
  assert (blocks home_page home_url = [long_text +:+ nl]) as Hblocks
    by (by vm_compute).
  split; [exact Hblocks|].
  apply (blocks_are_lines home_page home_url). rewrite Hblocks. by left.
Defined.

(** The paths [/a/b] and [/a_b] have one slot name, and the page saved
    second replaces the page saved first. *)
Lemma save_overwrites_witness :
  slot_name "/a/b" = slot_name "/a_b"
  ∧ ∃ fs1 fs2,
      _save_markdown always always scraper empty_fs home_text (slot_name "/a/b")
      = Returns (true, fs1)
      ∧ _save_markdown always always scraper fs1 index_text (slot_name "/a_b")
        = Returns (true, fs2)
      ∧ _save_markdown always always scraper empty_fs index_text (slot_name "/a_b")
        = Returns (true, fs2)
      ∧ files fs2 !! file_path scraper (slot_name "/a/b") = Some index_text.
Proof.
  split; [done|].
  apply (save_overwrites always always scraper empty_fs home_text index_text);
    by vm_compute.
Defined.


(** Of the three anchors of the home page, the team page is taken and
    the brochure is not. *)
Lemma extract_links_spec_witness :
  team_url ∈ _extract_links urlparse_model scraper home_page
  ∧ "https://example.com/brochure.pdf" ∉ _extract_links urlparse_model scraper home_page.
Proof.
  pose proof (proj2 (extract_links_spec urlparse_model scraper home_page)
                _ team_url eq_refl) as Hteam.
  pose proof (proj2 (extract_links_spec urlparse_model scraper home_page)
                _ "https://example.com/brochure.pdf" eq_refl) as Hpdf.
  split.
  - apply Hteam. split_and!; [by left|done|by vm_compute].
  - intros Hin. apply Hpdf in Hin as (_ & _ & Hvalid). by vm_compute in Hvalid.
Defined.


(** ** Checks of the string functions and of the reference parser *)

Example strip_ex : strip (String "010" " a b  ") = "a b".
Proof. reflexivity. Qed.
Example split_ex : split "/" "a//b/" = ["a"; ""; "b"; ""].
Proof. reflexivity. Qed.
Example lower_ex : lower "/EN/Page" = "/en/page".
Proof. reflexivity. Qed.
Example collapse_ex : collapse_ws (String "a" (String "009" " b  c ")) = "a b c ".
Proof. reflexivity. Qed.
Example ends_ex : endswith "x.pdf" ".pdf" = true /\ endswith "x.pdf?" ".pdf" = false.
Proof. split; reflexivity. Qed.
Example esc_ex : escape_markdown "a*b" = "a\*b".
Proof. reflexivity. Qed.
Example urlparse_full : urlparse_model "https://example.com/a/b.pdf?x=1#f" = Returns {| scheme := "https"; netloc := "example.com"; path := "/a/b.pdf"; params := ""; query := "x=1"; fragment := "f" |}.
Proof. reflexivity. Qed.
Example urlparse_no_path : urlparse_model "HTTP://Example.com" = Returns {| scheme := "http"; netloc := "Example.com"; path := ""; params := ""; query := ""; fragment := "" |}.
Proof. reflexivity. Qed.
Example urlparse_params : urlparse_model "/a/b;p;q/c;d?x" = Returns {| scheme := ""; netloc := ""; path := "/a/b;p;q/c"; params := "d"; query := "x"; fragment := "" |}.
Proof. reflexivity. Qed.
Example urlparse_mailto : urlparse_model "mailto:a@b.c" = Returns {| scheme := "mailto"; netloc := ""; path := "a@b.c"; params := ""; query := ""; fragment := "" |}.
Proof. reflexivity. Qed.
